(** * sev-shim: attestation shim and API-key verifier

    A shallow embedding of the Go sources of the SEV-SNP attestation shim
    ([main.go] and its two sibling variants) and of the API-key verifier
    ([package key]), with the properties of the design document stated and
    settled against the embedding.

    Conventions.
    - A Go [[]byte] is a [list byte]; a Go [string] is a [string]; the
      conversion the Go code performs implicitly (e.g. in [copy(dst, s)])
      is [list_byte_of_string].
    - Fixed-width integers are [Z] with the wrap-around written out
      ([wrap64] for [int64], [mod 2^32] for [uint32]).
    - [http.Header] is a [gmap string (list string)].
    - Standard-library and third-party functions the shim calls are
      embedded from their documented behaviour; the ones whose internals
      play no role (the quote provider, the Ed25519 group arithmetic, the
      JSON marshaller, the MIME sniffer) are parameters. *)

From Stdlib Require Import ZArith List Strings.String Strings.Ascii Strings.Byte Lia Bool.
From stdpp Require Import base gmap strings list fin_maps.
Import ListNotations.

(** ** Bytes *)

Module GoBytes.

Definition Z_of_byte (b : byte) : Z := Z.of_N (Byte.to_N b).

Definition byte_of_Z (z : Z) : byte :=
  match Byte.of_N (Z.to_N (z mod 256)) with
  | Some b => b
  | None => x00
  end.

(** Go's builtin [copy(dst, src)]: overwrites the first
    [min(len(dst), len(src))] elements of [dst]. *)
Definition copy {A} (dst src : list A) : list A :=
  let n := Nat.min (length dst) (length src) in
  firstn n src ++ skipn n dst.

(** Go's slice expression [s[lo:hi]] for in-range bounds. *)
Definition slice {A} (s : list A) (lo hi : nat) : list A :=
  firstn (hi - lo) (skipn lo s).

(** [binary.BigEndian.Uint64] on the first eight bytes of [b]. *)
Definition be_fold (b : list byte) : Z :=
  fold_left (fun acc x => (acc * 256 + Z_of_byte x)%Z) b 0%Z.

Definition BigEndian_Uint64 (b : list byte) : Z := be_fold (firstn 8 b).

(** The number written by eight bytes, the most significant one first. *)
Definition be8 (b0 b1 b2 b3 b4 b5 b6 b7 : byte) : Z :=
  (Z_of_byte b0 * 2 ^ 56 + Z_of_byte b1 * 2 ^ 48 + Z_of_byte b2 * 2 ^ 40
   + Z_of_byte b3 * 2 ^ 32 + Z_of_byte b4 * 2 ^ 24 + Z_of_byte b5 * 2 ^ 16
   + Z_of_byte b6 * 2 ^ 8 + Z_of_byte b7)%Z.

(** [binary.BigEndian.PutUint64], used to build concrete tokens. *)
Definition BigEndian_PutUint64 (v : Z) : list byte :=
  map (fun i => byte_of_Z (Z.shiftr v (8 * Z.of_nat i)))
      [7; 6; 5; 4; 3; 2; 1; 0]%nat.

End GoBytes.

(** ** encoding/hex *)

Module Hex.
Import GoBytes.

Definition hextable : string := "0123456789abcdef".

Definition hexdigit (n : Z) : ascii :=
  match String.get (Z.to_nat n) hextable with
  | Some c => c
  | None => "0"%char
  end.

(** [hex.EncodeToString]: two characters per byte, high nibble first. *)
Fixpoint EncodeToString (src : list byte) : string :=
  match src with
  | [] => EmptyString
  | v :: rest =>
      String (hexdigit (Z.shiftr (Z_of_byte v) 4))
        (String (hexdigit (Z.land (Z_of_byte v) 15))
           (EncodeToString rest))
  end.

(** The bytes of [hextable]: the digits and the lowercase letters a to f. *)
Definition is_lower_hex (b : byte) : bool :=
  existsb (Byte.eqb b) (list_byte_of_string hextable).

End Hex.

(** ** crypto/sha256 *)

Module Sha256.
Import GoBytes.
Local Open Scope Z_scope.

Definition add32 (a b : Z) : Z := (a + b) mod 2 ^ 32.

Definition rotr (x n : Z) : Z :=
  Z.lor (Z.shiftr x n) (Z.shiftl x (32 - n) mod 2 ^ 32).

Definition not32 (x : Z) : Z := Z.lxor x 0xffffffff.

Definition Ch (x y z : Z) : Z := Z.lxor (Z.land x y) (Z.land (not32 x) z).
Definition Maj (x y z : Z) : Z :=
  Z.lxor (Z.lxor (Z.land x y) (Z.land x z)) (Z.land y z).
Definition bsig0 (x : Z) : Z := Z.lxor (Z.lxor (rotr x 2) (rotr x 13)) (rotr x 22).
Definition bsig1 (x : Z) : Z := Z.lxor (Z.lxor (rotr x 6) (rotr x 11)) (rotr x 25).
Definition ssig0 (x : Z) : Z := Z.lxor (Z.lxor (rotr x 7) (rotr x 18)) (Z.shiftr x 3).
Definition ssig1 (x : Z) : Z := Z.lxor (Z.lxor (rotr x 17) (rotr x 19)) (Z.shiftr x 10).

(** The constants of FIPS 180-4 are defined from the first primes: the
    round constants are the first 32 bits of the fractional parts of
    their cube roots, the initial hash value those of the square roots. *)
Definition is_prime (n : Z) : bool :=
  (1 <? n) && forallb (fun d => negb (n mod Z.of_nat d =? 0))
                      (seq 2 (Z.to_nat n - 2)).

Fixpoint primes_from (fuel count : nat) (n : Z) : list Z :=
  match fuel, count with
  | O, _ | _, O => []
  | S fuel', S count' =>
      if is_prime n then n :: primes_from fuel' count' (n + 1)
      else primes_from fuel' count (n + 1)
  end.

Definition first_primes (count : nat) : list Z := primes_from 400 count 2.

(** The integer cube root of [x], between [lo] and [hi], by bisection. *)
Fixpoint cbrt_between (fuel : nat) (lo hi x : Z) : Z :=
  match fuel with
  | O => lo
  | S fuel' =>
      let mid := (lo + hi) / 2 in
      if mid * mid * mid <=? x then cbrt_between fuel' mid hi x
      else cbrt_between fuel' lo mid x
  end.

Definition frac_cbrt32 (p : Z) : Z :=
  cbrt_between 48 0 (2 ^ 36) (p * 2 ^ 96) mod 2 ^ 32.

Definition frac_sqrt32 (p : Z) : Z := Z.sqrt (p * 2 ^ 64) mod 2 ^ 32.

Definition K : list Z := map frac_cbrt32 (first_primes 64).

Record state := mkState { ha : Z; hb : Z; hc : Z; hd : Z; he : Z; hf : Z; hg : Z; hh : Z }.

Definition init : state :=
  match map frac_sqrt32 (first_primes 8) with
  | [a; b; c; d; e; f; g; h] => mkState a b c d e f g h
  | _ => mkState 0 0 0 0 0 0 0 0
  end.

(** Message padding: a [0x80] byte, zeros up to 56 modulo 64, then the bit
    length as a big-endian 64-bit integer. *)
Definition pad (msg : list byte) : list byte :=
  let len := Z.of_nat (length msg) in
  msg ++ [x80] ++ repeat x00 (Z.to_nat ((55 - len) mod 64))
      ++ BigEndian_PutUint64 ((8 * len) mod 2 ^ 64).

Fixpoint words (n : nat) (b : list byte) : list Z :=
  match n with
  | O => []
  | S n' => be_fold (firstn 4 b) :: words n' (skipn 4 b)
  end.

(** The message schedule, most recent word first. *)
Fixpoint extend (n : nat) (r : list Z) : list Z :=
  match n with
  | O => r
  | S n' =>
      let w := add32 (add32 (ssig1 (nth 1 r 0)) (nth 6 r 0))
                     (add32 (ssig0 (nth 14 r 0)) (nth 15 r 0)) in
      extend n' (w :: r)
  end.

Definition schedule (block : list byte) : list Z :=
  rev (extend 48 (rev (words 16 block))).

Definition round (s : state) (kw : Z * Z) : state :=
  let t1 := add32 (add32 (add32 (hh s) (bsig1 (he s)))
                         (add32 (Ch (he s) (hf s) (hg s)) (fst kw))) (snd kw) in
  let t2 := add32 (bsig0 (ha s)) (Maj (ha s) (hb s) (hc s)) in
  mkState (add32 t1 t2) (ha s) (hb s) (hc s) (add32 (hd s) t1) (he s) (hf s) (hg s).

Definition compress (s : state) (block : list byte) : state :=
  let r := fold_left round (combine K (schedule block)) s in
  mkState (add32 (ha s) (ha r)) (add32 (hb s) (hb r)) (add32 (hc s) (hc r))
          (add32 (hd s) (hd r)) (add32 (he s) (he r)) (add32 (hf s) (hf r))
          (add32 (hg s) (hg r)) (add32 (hh s) (hh r)).

Fixpoint blocks (n : nat) (b : list byte) : list (list byte) :=
  match n with
  | O => []
  | S n' => firstn 64 b :: blocks n' (skipn 64 b)
  end.

Definition be32 (w : Z) : list byte :=
  [byte_of_Z (Z.shiftr w 24); byte_of_Z (Z.shiftr w 16);
   byte_of_Z (Z.shiftr w 8); byte_of_Z w].

Definition digest (s : state) : list byte :=
  be32 (ha s) ++ be32 (hb s) ++ be32 (hc s) ++ be32 (hd s) ++
  be32 (he s) ++ be32 (hf s) ++ be32 (hg s) ++ be32 (hh s).

(** [sha256.Sum256]: the 32-byte digest of [data]. *)
Definition Sum256 (data : list byte) : list byte :=
  let p := pad data in
  digest (fold_left compress (blocks (length p / 64)%nat p) init).

End Sha256.

(** ** encoding/base64 *)

Module Base64.
Import GoBytes.
Local Open Scope Z_scope.

Definition encodeStd : string :=
  "ABCDEFGHIJKLMNOPQRSTUVWXYZabcdefghijklmnopqrstuvwxyz0123456789+/".
Definition encodeURL : string :=
  "ABCDEFGHIJKLMNOPQRSTUVWXYZabcdefghijklmnopqrstuvwxyz0123456789-_".

Definition enc (alphabet : string) (v : Z) : ascii :=
  match String.get (Z.to_nat (Z.land v 63)) alphabet with
  | Some c => c
  | None => "A"%char
  end.

(** [Encoding.EncodeToString]: three bytes give four characters; a final
    group of one or two bytes is completed with the padding character,
    when the encoding has one. *)
Fixpoint EncodeToString (alphabet : string) (padChar : option ascii)
    (src : list byte) : string :=
  let padding := match padChar with
                 | Some c => String c EmptyString
                 | None => EmptyString
                 end in
  match src with
  | [] => EmptyString
  | [a] =>
      let val := Z.shiftl (Z_of_byte a) 16 in
      String (enc alphabet (Z.shiftr val 18))
        (String (enc alphabet (Z.shiftr val 12)) (padding ++ padding))
  | [a; b] =>
      let val := Z.lor (Z.shiftl (Z_of_byte a) 16) (Z.shiftl (Z_of_byte b) 8) in
      String (enc alphabet (Z.shiftr val 18))
        (String (enc alphabet (Z.shiftr val 12))
           (String (enc alphabet (Z.shiftr val 6)) padding))
  | a :: b :: c :: rest =>
      let val := Z.lor (Z.lor (Z.shiftl (Z_of_byte a) 16)
                              (Z.shiftl (Z_of_byte b) 8)) (Z_of_byte c) in
      String (enc alphabet (Z.shiftr val 18))
        (String (enc alphabet (Z.shiftr val 12))
           (String (enc alphabet (Z.shiftr val 6))
              (String (enc alphabet val)
                 (EncodeToString alphabet padChar rest))))
  end.

(** [base64.StdEncoding.EncodeToString]. *)
Definition StdEncoding_EncodeToString (src : list byte) : string :=
  EncodeToString encodeStd (Some "="%char) src.

(** [base64.RawURLEncoding.EncodeToString], used to build concrete tokens. *)
Definition RawURLEncoding_EncodeToString (src : list byte) : string :=
  EncodeToString encodeURL None src.

Fixpoint index_from (i : Z) (c : ascii) (alphabet : string) : option Z :=
  match alphabet with
  | EmptyString => None
  | String d rest =>
      if Ascii.eqb c d then Some i else index_from (i + 1) c rest
  end.

(** The decoder's [decodeMap]: the 6-bit value of a character, if any. *)
Definition decodeMap (alphabet : string) (c : ascii) : option Z :=
  index_from 0 c alphabet.

Definition is_newline (c : ascii) : bool :=
  Ascii.eqb c "010"%char || Ascii.eqb c "013"%char.

(** The 6-bit values of the input; carriage returns and line feeds are
    skipped, any other character outside the alphabet is corrupt input
    (an encoding without padding has no padding character to accept). *)
Fixpoint sextets (alphabet : string) (s : string) : option (list Z) :=
  match s with
  | EmptyString => Some []
  | String c rest =>
      if is_newline c then sextets alphabet rest
      else match decodeMap alphabet c with
           | None => None
           | Some v =>
               match sextets alphabet rest with
               | None => None
               | Some vs => Some (v :: vs)
               end
           end
  end.

(** [decodeQuantum] without padding and without strict mode: four values
    give three bytes; a final group of two or three values gives one or
    two bytes; a final group of one value is corrupt input. *)
Fixpoint quanta (vs : list Z) : option (list byte) :=
  match vs with
  | [] => Some []
  | [_] => None
  | [a; b] =>
      let val := Z.lor (Z.shiftl a 18) (Z.shiftl b 12) in
      Some [byte_of_Z (Z.shiftr val 16)]
  | [a; b; c] =>
      let val := Z.lor (Z.lor (Z.shiftl a 18) (Z.shiftl b 12)) (Z.shiftl c 6) in
      Some [byte_of_Z (Z.shiftr val 16); byte_of_Z (Z.shiftr val 8)]
  | a :: b :: c :: d :: rest =>
      let val := Z.lor (Z.lor (Z.lor (Z.shiftl a 18) (Z.shiftl b 12))
                              (Z.shiftl c 6)) d in
      match quanta rest with
      | None => None
      | Some out =>
          Some (byte_of_Z (Z.shiftr val 16) :: byte_of_Z (Z.shiftr val 8)
                  :: byte_of_Z val :: out)
      end
  end.

(** [base64.RawURLEncoding.DecodeString]; [None] is the decode error. *)
Definition RawURLEncoding_DecodeString (s : string) : option (list byte) :=
  match sextets encodeURL s with
  | None => None
  | Some vs => quanta vs
  end.

End Base64.

(** ** time *)

Module GoTime.
Local Open Scope Z_scope.

(** Two's-complement reduction to [int64]. *)
Definition wrap64 (z : Z) : Z := (z + 2 ^ 63) mod 2 ^ 64 - 2 ^ 63.

(** The conversion [int64(u)] of a [uint64]. *)
Definition int64 (u : Z) : Z := wrap64 u.

Definition minDuration : Z := - 2 ^ 63.
Definition maxDuration : Z := 2 ^ 63 - 1.
Definition Second : Z := 1000000000.

(** Multiplication of two [Duration]s (an [int64] product). *)
Definition Duration_mul (a b : Z) : Z := wrap64 (a * b).

(** Seconds from January 1, year 1 to January 1, 1970. *)
Definition unixToInternal : Z := 62135596800.

(** A wall-clock instant: seconds since January 1, year 1 (an [int64])
    and nanoseconds within the second. *)
Record Time := mkTime { sec : Z; nsec : Z }.

(** [time.Unix(sec, nsec)]. *)
Definition Unix (s ns : Z) : Time :=
  let '(s, ns) :=
    if (ns <? 0) || (1000000000 <=? ns) then
      let n := Z.quot ns 1000000000 in
      let s := wrap64 (s + n) in
      let ns := ns - n * 1000000000 in
      if ns <? 0 then (wrap64 (s - 1), ns + 1000000000) else (s, ns)
    else (s, ns) in
  mkTime (wrap64 (s + unixToInternal)) ns.

(** [t.Sub(u)] for wall-clock readings: the difference in nanoseconds,
    replaced by the largest (smallest) [Duration] when it does not fit. *)
Definition Sub (t u : Time) : Z :=
  let d := (sec t - sec u) * 1000000000 + (nsec t - nsec u) in
  if maxDuration <? d then maxDuration
  else if d <? minDuration then minDuration
  else d.

(** [time.Since(t)], with the clock reading [now] made explicit. *)
Definition Since (now t : Time) : Z := Sub now t.

(** The range of the two fields of a [Time]. *)
Definition wf (t : Time) : Prop :=
  - 2 ^ 63 <= sec t < 2 ^ 63 /\ 0 <= nsec t < 1000000000.

(** Nanoseconds since the Unix epoch, as a mathematical integer. *)
Definition unixNano (t : Time) : Z :=
  (sec t - unixToInternal) * 1000000000 + nsec t.

End GoTime.

(** ** strings *)

Module Strings.

(** [strings.Split(s, sep)] for a one-character separator: the pieces of
    [s] between the separators.  The result is never empty: a string
    without separator (the empty string included) gives the one-element
    list holding it. *)
Fixpoint Split (s : string) (sep : ascii) : list string :=
  match s with
  | EmptyString => [EmptyString]
  | String c rest =>
      if Ascii.eqb c sep then EmptyString :: Split rest sep
      else match Split rest sep with
           | piece :: pieces => String c piece :: pieces
           | [] => [String c EmptyString]
           end
  end.

End Strings.

(** ** net/http: the response writer *)

Module Http.

Abbreviation Header := (gmap string (list string)).

Record Request := mkRequest { Method : string; Path : string }.

(** The server's [http.ResponseWriter].  [header] is the map returned by
    [w.Header()], which the handler may change at any time; [sent] is the
    copy of it taken by the first [WriteHeader], the only headers that
    reach the client; [status] is the code of that first [WriteHeader]. *)
Record ResponseWriter := mkWriter {
  header : Header;
  wroteHeader : bool;
  status : nat;
  sent : Header;
  written : list byte
}.

Definition newWriter : ResponseWriter := mkWriter ∅ false 0 ∅ [].

(** [w.Header().Set(key, value)]; every key the shim uses is already in
    canonical form. *)
Definition Header_Set (key value : string) (w : ResponseWriter) : ResponseWriter :=
  mkWriter (<[key := [value]]> (header w)) (wroteHeader w) (status w)
           (sent w) (written w).

(** [w.Header().Del(key)]. *)
Definition Header_Del (key : string) (w : ResponseWriter) : ResponseWriter :=
  mkWriter (delete key (header w)) (wroteHeader w) (status w)
           (sent w) (written w).

(** [w.WriteHeader(code)]: the first call fixes the status and the
    headers; a later call is superfluous and changes nothing. *)
Definition WriteHeader (code : nat) (w : ResponseWriter) : ResponseWriter :=
  if wroteHeader w then w
  else mkWriter (header w) true code (header w) (written w).

(** [w.Write(p)]: writes the header with status 200 if none was written. *)
Definition Write (p : list byte) (w : ResponseWriter) : ResponseWriter :=
  let w := if wroteHeader w then w else WriteHeader 200 w in
  mkWriter (header w) (wroteHeader w) (status w) (sent w) (written w ++ p).

Definition StatusOK : nat := 200.
Definition StatusForbidden : nat := 403.

(** [http.Error(w, error, code)]. *)
Definition Error (w : ResponseWriter) (error : string) (code : nat) : ResponseWriter :=
  let w := Header_Del "Content-Length" w in
  let w := Header_Set "Content-Type" "text/plain; charset=utf-8" w in
  let w := Header_Set "X-Content-Type-Options" "nosniff" w in
  let w := WriteHeader code w in
  Write (list_byte_of_string error ++ [x0a]) w.

(** What the client receives. *)
Record Response := mkResponse {
  StatusCode : nat;
  RespHeader : Header;
  RespBody : list byte
}.

Section Finish.

(** [http.DetectContentType], the server's MIME sniffer. *)
Variable DetectContentType : list byte -> string.

(** The response once the handler has returned: a handler that wrote
    nothing answers 200; a response with a body and no [Content-Type]
    among the sent headers gets the sniffed one.  ([Date] and the
    length or transfer-encoding headers the server adds are left out.) *)
Definition finish (w : ResponseWriter) : Response :=
  let w := if wroteHeader w then w else WriteHeader StatusOK w in
  let h :=
    match sent w !! "Content-Type"%string, written w with
    | None, _ :: _ => <["Content-Type"%string := [DetectContentType (written w)]]> (sent w)
    | _, _ => sent w
    end in
  mkResponse (status w) h (written w).

End Finish.

End Http.

(** ** The shim: [main.go] and its two variants

    [attestationReport], the fingerprint computation and the attestation
    handler are textually the same in the three [main] files; they differ
    in [cors] (the variants delete the three headers before setting them),
    in whether the proxy handler calls [cors], and in where the allowed
    paths come from (a comma-separated flag, or a YAML list). *)

Module Shim.
Import GoBytes Http.

(** [attestation.Document] of the verifier package. *)
Record Document := mkDocument { Format : string; Body : string }.

(** The quote provider of go-sev-guest; [None] is a returned error. *)
Record QuoteProvider := mkQuoteProvider {
  GetRawQuote : list byte -> option (list byte)
}.

Inductive Fatal :=
| FailedQuoteProvider
| FailedQuote
| InvalidHeader (pair : string).

Inductive result (A : Type) :=
| Ok (a : A)
| Err (e : Fatal).
Arguments Ok {A} a.
Arguments Err {A} e.

(** The request handed to the reverse proxy by its [Director]. *)
Record Upstream := mkUpstream {
  Scheme : string;
  HostAddr : string;
  HostPort : Z;
  HostHeader : option string;
  Added : gmap string string
}.

(** A handler either answers by itself or hands the request to the proxy. *)
Inductive Outcome :=
| Forwarded (w : ResponseWriter) (up : Upstream)
| Responded (w : ResponseWriter).

Definition writer_of (o : Outcome) : ResponseWriter :=
  match o with
  | Forwarded w _ => w
  | Responded w => w
  end.

Definition wellKnown : string := "/.well-known/tinfoil-attestation".

(** The loop [for _, path := range paths { if r.URL.Path == path {...} }]. *)
Fixpoint allowed (urlPath : string) (paths : list string) : bool :=
  match paths with
  | [] => false
  | path :: rest => if String.eqb urlPath path then true else allowed urlPath rest
  end.

(** The 64-byte array [userData] after [copy(userData[:], certFP)]. *)
Definition userData (certFP : string) : list byte :=
  copy (repeat x00 64) (list_byte_of_string certFP).

(** [certFPHex] of [main], from the raw bytes of the leaf certificate. *)
Definition certFPHex (raw : list byte) : string :=
  Hex.EncodeToString (Sha256.Sum256 raw).

Section Shim.

(** [attestation.SevGuestV1], the format tag of the verifier package. *)
Variable SevGuestV1 : string.
(** [abi.ReportSize] of go-sev-guest. *)
Variable ReportSize : nat.
(** [json.Marshal] on a [Document]. *)
Variable json_Marshal : Document -> list byte.

(** [attestationReport]; the argument [provider] is the result of
    [client.GetQuoteProvider()]. *)
Definition attestationReport (provider : option QuoteProvider)
    (certFP : string) : result Document :=
  let userData := userData certFP in
  match provider with
  | None => Err FailedQuoteProvider
  | Some qp =>
      match GetRawQuote qp userData with
      | None => Err FailedQuote
      | Some report =>
          let report :=
            if (ReportSize <? length report)%nat
            then firstn ReportSize report else report in
          Ok (mkDocument SevGuestV1 (Base64.StdEncoding_EncodeToString report))
      end
  end.

(** The handler registered for [wellKnown], given its [cors]. *)
Definition attestationHandler (cors : ResponseWriter -> Request -> ResponseWriter)
    (att : Document) (w : ResponseWriter) (r : Request) : ResponseWriter :=
  let w := cors w r in
  let w := WriteHeader StatusOK w in
  let w := Header_Set "Content-Type" "application/json" w in
  Write (json_Marshal att ++ [x0a]) w.

(** The path check shared by the three proxy handlers. *)
Definition gate (paths : list string) (up : Upstream)
    (w : ResponseWriter) (r : Request) : Outcome :=
  if (0 <? length paths)%nat then
    if allowed (Path r) paths then Forwarded w up
    else Responded (Error w "shim: 403" StatusForbidden)
  else Forwarded w up.

End Shim.

(** *** [main.go] *)

Module MainGo.
Section MainGo.

Variable SevGuestV1 : string.
Variable ReportSize : nat.
Variable json_Marshal : Document -> list byte.

Definition cors (w : ResponseWriter) (r : Request) : ResponseWriter :=
  let w := Header_Set "Access-Control-Allow-Origin" "*" w in
  let w := Header_Set "Access-Control-Allow-Methods" "*" w in
  let w := Header_Set "Access-Control-Allow-Headers" "*" w in
  if String.eqb (Method r) "OPTIONS" then WriteHeader StatusOK w else w.

(** The loop over [headerPairs]; an entry that is not [key:value] is fatal. *)
Fixpoint parseHeaders (headerPairs : list string) (headerMap : gmap string string)
    : result (gmap string string) :=
  match headerPairs with
  | [] => Ok headerMap
  | kv :: rest =>
      match Strings.Split kv ":"%char with
      | [k; v] => parseHeaders rest (<[k := v]> headerMap)
      | _ => Err (InvalidHeader kv)
      end
  end.

Record Server := mkServer {
  paths : list string;
  headerMap : gmap string string;
  upstream : Z;
  att : Document
}.

(** [main] up to the registration of the handlers: the flags [-H], [-p]
    and [-u], the raw leaf certificate and the quote provider. *)
Definition main (headers allowedPaths : string) (upstreamPort : Z)
    (raw : list byte) (provider : option QuoteProvider) : result Server :=
  match parseHeaders (Strings.Split headers ","%char) ∅ with
  | Err e => Err e
  | Ok headerMap =>
      let paths := Strings.Split allowedPaths ","%char in
      match attestationReport SevGuestV1 ReportSize provider (certFPHex raw) with
      | Err e => Err e
      | Ok att => Ok (mkServer paths headerMap upstreamPort att)
      end
  end.

Definition director (s : Server) : Upstream :=
  mkUpstream "http" "127.0.0.1" (upstream s) None (headerMap s).

(** The handler registered for ["/"]. *)
Definition proxyHandler (s : Server) (w : ResponseWriter) (r : Request) : Outcome :=
  let w := cors w r in
  gate (paths s) (director s) w r.

(** The mux, for a request whose path is in clean form. *)
Definition serve (s : Server) (r : Request) : Outcome :=
  if String.eqb (Path r) wellKnown
  then Responded (attestationHandler json_Marshal cors (att s) newWriter r)
  else proxyHandler s newWriter r.

End MainGo.
End MainGo.

(** *** The variants with a certificate cache *)

Module Variant.
Section Variant.

Variable SevGuestV1 : string.
Variable ReportSize : nat.
Variable json_Marshal : Document -> list byte.

Definition cors (w : ResponseWriter) (r : Request) : ResponseWriter :=
  let w := Header_Del "Access-Control-Allow-Origin" w in
  let w := Header_Del "Access-Control-Allow-Methods" w in
  let w := Header_Del "Access-Control-Allow-Headers" w in
  let w := Header_Set "Access-Control-Allow-Origin" "*" w in
  let w := Header_Set "Access-Control-Allow-Methods" "*" w in
  let w := Header_Set "Access-Control-Allow-Headers" "*" w in
  if String.eqb (Method r) "OPTIONS" then WriteHeader StatusOK w else w.

Record Server := mkServer {
  paths : list string;
  upstream : Z;
  att : Document
}.

(** [main] of the flag-driven variant. *)
Definition main_flags (allowedPaths : string) (upstreamPort : Z)
    (raw : list byte) (provider : option QuoteProvider) : result Server :=
  let paths := Strings.Split allowedPaths ","%char in
  match attestationReport SevGuestV1 ReportSize provider (certFPHex raw) with
  | Err e => Err e
  | Ok att => Ok (mkServer paths upstreamPort att)
  end.

(** [main] of the YAML-driven variant: [config.Paths] is the list read
    from the configuration file. *)
Definition main_yaml (configPaths : list string) (upstreamPort : Z)
    (raw : list byte) (provider : option QuoteProvider) : result Server :=
  match attestationReport SevGuestV1 ReportSize provider (certFPHex raw) with
  | Err e => Err e
  | Ok att => Ok (mkServer configPaths upstreamPort att)
  end.

Definition director (s : Server) : Upstream :=
  mkUpstream "http" "127.0.0.1" (upstream s) (Some "localhost"%string) ∅.

(** The handler registered for ["/"]; the call to [cors] is commented out. *)
Definition proxyHandler (s : Server) (w : ResponseWriter) (r : Request) : Outcome :=
  gate (paths s) (director s) w r.

Definition serve (s : Server) (r : Request) : Outcome :=
  if String.eqb (Path r) wellKnown
  then Responded (attestationHandler json_Marshal cors (att s) newWriter r)
  else proxyHandler s newWriter r.

End Variant.
End Variant.

End Shim.

(** ** The API-key verifier: [package key] *)

Module Key.
Import GoBytes GoTime.

Inductive KeyError :=
| ErrInvalidKeyFormat
| ErrInvalidKeyLength
| ErrAPIKeyExpired
| ErrInvalidSignature.

(** What a call of [Verify] does: it returns [nil] or an error, or panics. *)
Inductive outcome :=
| Return (err : option KeyError)
| Panic.

Record Verifier := mkVerifier { publicKey : list byte }.

(** [ed25519.PublicKeySize]. *)
Definition PublicKeySize : nat := 32.

(** Modelled from the spec: the size constants of the package, declared in
    a file that is not part of the sources at hand; the token is
    [nonce || issuedAt (8 bytes) || validitySeconds (8 bytes) ||
    signature (64 bytes)]. *)
Definition timestampSize : nat := 8.
Definition validitySize : nat := 8.
Definition signatureSize : nat := 64.

Section Key.

(** The size of the nonce, from the same missing declarations. *)
Variable nonceSize : nat.

(** The signature equation of Ed25519 for a key of [PublicKeySize] bytes:
    [verify publicKey message sig]. *)
Variable verify : list byte -> list byte -> list byte -> bool.

(** Modelled from the spec: the fixed total
    [nonceSize + 8 + 8 + signatureSize]. *)
Definition totalSize : nat :=
  (nonceSize + timestampSize + validitySize + signatureSize)%nat.

(** [ed25519.Verify], which panics when the key does not have
    [PublicKeySize] bytes; [None] is the panic. *)
Definition ed25519_Verify (pk message sig : list byte) : option bool :=
  if (length pk =? PublicKeySize)%nat then Some (verify pk message sig)
  else None.

(** [NewVerifier]; [None] is the decode error it returns. *)
Definition NewVerifier (publicKey : string) : option Verifier :=
  match Base64.RawURLEncoding_DecodeString publicKey with
  | None => None
  | Some pk => Some (mkVerifier pk)
  end.

(** The two integer fields as [Verify] reads them. *)
Definition timestamp (data : list byte) : Z :=
  int64 (BigEndian_Uint64 (slice data nonceSize (nonceSize + timestampSize))).

Definition validity (data : list byte) : Z :=
  int64 (BigEndian_Uint64
           (slice data (nonceSize + timestampSize)
                  (nonceSize + timestampSize + validitySize))).

(** The test [time.Since(time.Unix(timestamp, 0)) >
    time.Duration(validity)*time.Second]. *)
Definition expired (now : Time) (data : list byte) : bool :=
  (Since now (Unix (timestamp data) 0)
   >? Duration_mul (validity data) Second)%Z.

(** The two slices [data[:n]] and [data[n:]] with
    [n = nonceSize+timestampSize+validitySize]. *)
Definition message (data : list byte) : list byte :=
  slice data 0 (nonceSize + timestampSize + validitySize).

Definition signature (data : list byte) : list byte :=
  skipn (nonceSize + timestampSize + validitySize) data.

(** [Verifier.Verify], with the clock reading [now] made explicit. *)
Definition Verify (v : Verifier) (now : Time) (apiKey : string) : outcome :=
  match Base64.RawURLEncoding_DecodeString apiKey with
  | None => Return (Some ErrInvalidKeyFormat)
  | Some data =>
      if negb (length data =? totalSize)%nat
      then Return (Some ErrInvalidKeyLength)
      else
        if expired now data then Return (Some ErrAPIKeyExpired)
        else
          match ed25519_Verify (publicKey v) (message data) (signature data) with
          | None => Panic
          | Some false => Return (Some ErrInvalidSignature)
          | Some true => Return None
          end
  end.

(** The token layout, for building concrete tokens. *)
Definition token (nonce : list byte) (issuedAt validitySeconds : Z)
    (sig : list byte) : string :=
  Base64.RawURLEncoding_EncodeToString
    (nonce ++ BigEndian_PutUint64 issuedAt
           ++ BigEndian_PutUint64 validitySeconds ++ sig).

(** The two fields read as the unsigned integers they are on the wire. *)
Definition issuedAt_u (data : list byte) : Z :=
  BigEndian_Uint64 (slice data nonceSize (nonceSize + timestampSize)).

Definition validity_u (data : list byte) : Z :=
  BigEndian_Uint64
    (slice data (nonceSize + timestampSize)
           (nonceSize + timestampSize + validitySize)).

End Key.

End Key.

(** ** More of package strings *)

Module GoStrings.

(** [strings.HasPrefix(s, prefix)]. *)
Fixpoint HasPrefix (s prefix : string) : bool :=
  match prefix, s with
  | EmptyString, _ => true
  | String _ _, EmptyString => false
  | String p prefix', String c s' => Ascii.eqb c p && HasPrefix s' prefix'
  end.

(** The slice [s[n:]]. *)
Fixpoint drop (n : nat) (s : string) : string :=
  match n, s with
  | O, _ => s
  | S _, EmptyString => EmptyString
  | S n', String _ s' => drop n' s'
  end.

(** [strings.TrimPrefix(s, prefix)]. *)
Definition TrimPrefix (s prefix : string) : string :=
  if HasPrefix s prefix then drop (String.length prefix) s else s.

(** [strings.Join(elems, sep)] for a one-character separator. *)
Fixpoint Join (elems : list string) (sep : ascii) : string :=
  match elems with
  | [] => EmptyString
  | [e] => e
  | e :: rest => e ++ String sep (Join rest sep)
  end.

(** The number of occurrences of a character, and its absence. *)
Fixpoint Count (s : string) (c : ascii) : nat :=
  match s with
  | EmptyString => 0
  | String d rest => (if Ascii.eqb d c then 1 else 0) + Count rest c
  end.

Definition free_of (c : ascii) (s : string) : Prop := Count s c = 0%nat.

End GoStrings.

(** ** [cmdlineParam] of [main.go] *)

Module Cmdline.
Import GoStrings.

Inductive CmdlineError :=
| ReadFailed
| Missing (key : string).

(** The loop over the pieces of the command line. *)
Fixpoint scan (pieces : list string) (prefix : string) : option string :=
  match pieces with
  | [] => None
  | p :: rest =>
      if HasPrefix p prefix then Some (TrimPrefix p prefix)
      else scan rest prefix
  end.

(** [cmdlineParam]; [procCmdline] is the content of [/proc/cmdline], or
    [None] when it cannot be read. *)
Definition cmdlineParam (procCmdline : option string) (key : string)
    : string + CmdlineError :=
  match procCmdline with
  | None => inr ReadFailed
  | Some cmdline =>
      match scan (Strings.Split cmdline " "%char) (key ++ "=") with
      | Some value => inl value
      | None => inr (Missing key)
      end
  end.

End Cmdline.

(** ** Decoding hexadecimal text *)

Module HexDec.
Import GoBytes.

(** [fromHexChar] of encoding/hex. *)
Definition fromHexChar (c : ascii) : option Z :=
  let n := Z.of_nat (nat_of_ascii c) in
  if ((48 <=? n) && (n <=? 57))%Z then Some (n - 48)%Z
  else if ((97 <=? n) && (n <=? 102))%Z then Some (n - 97 + 10)%Z
  else if ((65 <=? n) && (n <=? 70))%Z then Some (n - 65 + 10)%Z
  else None.

(** [hex.DecodeString]; [None] is the error for a character that is not a
    hexadecimal digit or for an odd number of characters. *)
Fixpoint DecodeString (s : string) : option (list byte) :=
  match s with
  | EmptyString => Some []
  | String _ EmptyString => None
  | String hi (String lo rest) =>
      match fromHexChar hi, fromHexChar lo, DecodeString rest with
      | Some a, Some b, Some out =>
          Some (byte_of_Z (Z.lor (Z.shiftl a 4) b) :: out)
      | _, _, _ => None
      end
  end.

End HexDec.

(** ** What a handler can do to a response writer *)

Module HttpOps.
Import Http.




End HttpOps.

(** ** The text of a flag and of a token *)

Module Flags.
Import GoStrings.

(** An entry of the flag [-H] that [main] accepts: exactly one colon. *)
Definition one_colon (kv : string) : Prop := Count kv ":" = 1%nat.

(** The entry [key:value] of the flag [-H]. *)
Definition entry (kv : string * string) : string :=
  (fst kv ++ String ":" (snd kv))%string.

(** A pair whose name and value hold neither a colon nor a comma. *)
Definition plain (kv : string * string) : Prop :=
  free_of ":" (fst kv) /\ free_of ":" (snd kv)
  /\ free_of "," (fst kv) /\ free_of "," (snd kv).

End Flags.

Module TokenText.

(** The number of characters of a text other than carriage returns and
    line feeds. *)
Fixpoint significant (s : string) : nat :=
  match s with
  | EmptyString => 0
  | String c rest => (if Base64.is_newline c then 0 else 1) + significant rest
  end.

End TokenText.

(** ** Concrete values for the examples *)

Module Fixtures.
Import GoBytes GoTime.

(** A stand-in for the signature equation that accepts every signature,
    and one that rejects every signature. *)
Definition accept_all (pk message sig : list byte) : bool := true.
Definition reject_all (pk message sig : list byte) : bool := false.

(** The bytes of a token with a 16-byte zero nonce and a 64-byte zero
    signature, and its transport text. *)
Definition tok_bytes (issuedAt validitySeconds : Z) : list byte :=
  repeat x00 16 ++ BigEndian_PutUint64 issuedAt
    ++ BigEndian_PutUint64 validitySeconds ++ repeat x00 64.

Definition tok (issuedAt validitySeconds : Z) : string :=
  Key.token (repeat x00 16) issuedAt validitySeconds (repeat x00 64).

(** A verifier with a key of the right size. *)
Definition v32 : Key.Verifier := Key.mkVerifier (repeat x00 32).

(** A quote provider answering every request with [n] bytes [0x01]. *)
Definition provider (n : nat) : Shim.QuoteProvider :=
  Shim.mkQuoteProvider (fun _ => Some (repeat x01 n)).

Definition marshal (d : Shim.Document) : list byte :=
  list_byte_of_string ("{format:" ++ Shim.Format d ++ ",body:" ++ Shim.Body d ++ "}").


End Fixtures.

(** * Properties *)

(** ** Test vectors of the embedded library functions *)

Example sha256_constants :
  length Sha256.K = 64%nat
  /\ nth 0 Sha256.K 0%Z = 0x428a2f98%Z
  /\ nth 63 Sha256.K 0%Z = 0xc67178f2%Z
  /\ Sha256.ha Sha256.init = 0x6a09e667%Z
  /\ Sha256.hh Sha256.init = 0x5be0cd19%Z.
Proof. vm_compute. repeat split; reflexivity. Qed.

Example sha256_abc :
  Hex.EncodeToString (Sha256.Sum256 (list_byte_of_string "abc"))
  = "ba7816bf8f01cfea414140de5dae2223b00361a396177a9cb410ff61f20015ad"%string.
Proof. vm_compute. reflexivity. Qed.

Example sha256_empty :
  Hex.EncodeToString (Sha256.Sum256 [])
  = "e3b0c44298fc1c149afbf4c8996fb92427ae41e4649b934ca495991b7852b855"%string.
Proof. vm_compute. reflexivity. Qed.

Example base64_std_padding :
  map Base64.StdEncoding_EncodeToString
      [list_byte_of_string "hel"; list_byte_of_string "hell"; list_byte_of_string "hello"]
  = ["aGVs"; "aGVsbA=="; "aGVsbG8="]%string.
Proof. reflexivity. Qed.

Example base64_rawurl_decode :
  map Base64.RawURLEncoding_DecodeString ["aGVsbA"; "aGVsbA=="; "aGVsb"; "-_8"]%string
  = [Some (list_byte_of_string "hell"); None; None; Some [xfb; xff]].
Proof. reflexivity. Qed.

Example split_examples :
  map (fun s => Strings.Split s ","%char) [""; "/api"; "/api,/x"; "/api,"]%string
  = [[""]; ["/api"]; ["/api"; "/x"]; ["/api"; ""]]%string.
Proof. reflexivity. Qed.

(** ** Lengths *)

Section Lengths.
Import GoBytes.

Lemma length_bytes_of_string (s : string) :
  length (list_byte_of_string s) = String.length s.
Proof.
  unfold list_byte_of_string. rewrite length_map.
  induction s as [|c s IH]; simpl; [reflexivity | now rewrite IH].
Qed.

Lemma hex_length (src : list byte) :
  String.length (Hex.EncodeToString src) = (2 * length src)%nat.
Proof.
  induction src as [|v rest IH]; simpl; [reflexivity | rewrite IH; lia].
Qed.

Lemma be32_length (w : Z) : length (Sha256.be32 w) = 4%nat.
Proof. reflexivity. Qed.

Lemma Sum256_length (data : list byte) : length (Sha256.Sum256 data) = 32%nat.
Proof.
  unfold Sha256.Sum256, Sha256.digest.
  repeat rewrite length_app. repeat rewrite be32_length. reflexivity.
Qed.

Lemma copy_length {A} (dst src : list A) :
  length (copy dst src) = length dst.
Proof.
  unfold copy. rewrite length_app, length_firstn, length_skipn. lia.
Qed.

(** Copying into a zeroed buffer left-justifies the source, cuts it at the
    size of the buffer and leaves zeros after it. *)
Lemma copy_into_zeros (n : nat) (src : list byte) :
  copy (repeat x00 n) src = firstn n src ++ repeat x00 (n - length src).
Proof.
  unfold copy. rewrite repeat_length.
  destruct (Nat.le_gt_cases n (length src)) as [Hle | Hgt].
  - rewrite Nat.min_l by lia.
    rewrite skipn_all2 by (rewrite repeat_length; lia).
    replace (n - length src)%nat with 0%nat by lia. reflexivity.
  - rewrite Nat.min_r by lia.
    rewrite (firstn_all2 (n := n)) by lia.
    rewrite firstn_all. f_equal.
    replace n with (length src + (n - length src))%nat at 1 by lia.
    rewrite repeat_app, skipn_app, repeat_length.
    rewrite skipn_all2 by (rewrite repeat_length; lia).
    replace (length src - length src)%nat with 0%nat by lia. reflexivity.
Qed.

End Lengths.

(** ** The fingerprint binding *)

Section Binding.
Import GoBytes Shim.

Lemma hex_digits_lower (src : list byte) :
  Forall (fun b => Hex.is_lower_hex b = true)
         (list_byte_of_string (Hex.EncodeToString src)).
Proof.
  induction src as [|v rest IH]; [constructor|].
  change (list_byte_of_string (Hex.EncodeToString (v :: rest)))
    with (byte_of_ascii (Hex.hexdigit (Z.shiftr (Z_of_byte v) 4))
          :: byte_of_ascii (Hex.hexdigit (Z.land (Z_of_byte v) 15))
          :: list_byte_of_string (Hex.EncodeToString rest)).
  constructor; [|constructor]; [| |exact IH]; destruct v; reflexivity.
Qed.

Lemma certFPHex_length (raw : list byte) :
  length (list_byte_of_string (certFPHex raw)) = 64%nat.
Proof.
  unfold certFPHex.
  rewrite length_bytes_of_string, hex_length, Sum256_length. reflexivity.
Qed.

(** C1. For every certificate, the 64-byte buffer handed to the quote
    provider is the zeroed array overwritten from offset 0 with the text
    of the lowercase hexadecimal SHA-256 digest of the certificate bytes:
    the buffer is exactly the 64 characters of that text (never the raw
    32-byte digest), it depends on the certificate bytes alone, and it is
    the argument [GetRawQuote] receives. *)
Theorem user_data_is_hex_fingerprint (raw : list byte) :
  (forall certFP : string,
      userData certFP
      = firstn 64 (list_byte_of_string certFP)
        ++ repeat x00 (64 - String.length certFP))
  /\ userData (certFPHex raw)
     = list_byte_of_string (Hex.EncodeToString (Sha256.Sum256 raw))
  /\ length (userData (certFPHex raw)) = 64%nat
  /\ Forall (fun b => Hex.is_lower_hex b = true) (userData (certFPHex raw))
  /\ (forall SevGuestV1 ReportSize qp,
         attestationReport SevGuestV1 ReportSize (Some qp) (certFPHex raw)
         = match GetRawQuote qp
                   (list_byte_of_string
                      (Hex.EncodeToString (Sha256.Sum256 raw))) with
           | None => Err FailedQuote
           | Some report =>
               Ok (mkDocument SevGuestV1
                     (Base64.StdEncoding_EncodeToString
                        (if (ReportSize <? length report)%nat
                         then firstn ReportSize report else report)))
           end).
Proof.
  assert (Hpad : forall certFP : string,
             userData certFP
             = firstn 64 (list_byte_of_string certFP)
               ++ repeat x00 (64 - String.length certFP)).
  { intros certFP. unfold userData.
    rewrite copy_into_zeros, length_bytes_of_string. reflexivity. }
  assert (Heq : userData (certFPHex raw)
                = list_byte_of_string (Hex.EncodeToString (Sha256.Sum256 raw))).
  { rewrite Hpad. pose proof (certFPHex_length raw) as Hlen.
    rewrite <- length_bytes_of_string, Hlen.
    rewrite firstn_all2 by lia. rewrite Nat.sub_diag. apply app_nil_r. }
  split; [exact Hpad|]. split; [exact Heq|].
  split; [rewrite Heq; apply certFPHex_length|].
  split; [rewrite Heq; apply hex_digits_lower|].
  intros S R qp. unfold attestationReport. rewrite Heq. reflexivity.
Qed.

(** C8. Whatever report the provider returns, the document carries the
    provider's format tag and the standard base64 text of a prefix of the
    report: the whole report when it is no longer than [ReportSize], its
    first [ReportSize] bytes when it is longer; it is never padded and the
    call never fails on a long report. *)
Theorem attestation_report_truncates
    (SevGuestV1 : string) (ReportSize : nat) (qp : QuoteProvider)
    (certFP : string) (report : list byte)
    (Hquote : GetRawQuote qp (userData certFP) = Some report) :
  exists kept dropped : list byte,
    report = kept ++ dropped
    /\ attestationReport SevGuestV1 ReportSize (Some qp) certFP
       = Ok (mkDocument SevGuestV1 (Base64.StdEncoding_EncodeToString kept))
    /\ length kept = Nat.min (length report) ReportSize
    /\ ((ReportSize < length report)%nat -> length kept = ReportSize)
    /\ ((length report <= ReportSize)%nat -> kept = report).
Proof.
  unfold attestationReport. rewrite Hquote.
  destruct (ReportSize <? length report)%nat eqn:Hlt.
  - apply Nat.ltb_lt in Hlt.
    exists (firstn ReportSize report), (skipn ReportSize report).
    rewrite firstn_skipn, length_firstn.
    repeat split; try reflexivity; try lia.
  - apply Nat.ltb_ge in Hlt.
    exists report, []. rewrite app_nil_r.
    repeat split; try reflexivity; lia.
Qed.

Lemma attestation_report_truncates_witness :
  exists kept dropped : list byte,
    repeat x01 5 = kept ++ dropped
    /\ attestationReport "sev" 3 (Some (Fixtures.provider 5)) "00ff"
       = Ok (mkDocument "sev" (Base64.StdEncoding_EncodeToString kept))
    /\ length kept = Nat.min (length (repeat x01 5)) 3
    /\ ((3 < length (repeat x01 5))%nat -> length kept = 3%nat)
    /\ ((length (repeat x01 5) <= 3)%nat -> kept = repeat x01 5).
Proof.
  apply (attestation_report_truncates "sev" 3 (Fixtures.provider 5) "00ff").
  reflexivity.
Defined.

End Binding.

(** ** Integer fields and the clock *)

Section Clock.
Import GoBytes GoTime.
Local Open Scope Z_scope.

Lemma Z_of_byte_bounds (b : byte) : 0 <= Z_of_byte b < 256.
Proof.
  unfold Z_of_byte. pose proof (Byte.to_N_bounded b). lia.
Qed.

Lemma be_fold_acc (b : list byte) (acc : Z) :
  fold_left (fun a x => a * 256 + Z_of_byte x) b acc
  = acc * 256 ^ Z.of_nat (length b) + be_fold b.
Proof.
  revert acc.
  induction b as [|x b IH]; intros acc.
  - unfold be_fold. simpl. lia.
  - change (be_fold (x :: b))
      with (fold_left (fun a x => a * 256 + Z_of_byte x) b (0 * 256 + Z_of_byte x)).
    cbn [fold_left length]. rewrite IH, (IH (0 * 256 + Z_of_byte x)).
    rewrite Nat2Z.inj_succ, Z.pow_succ_r by lia. ring.
Qed.

Lemma be_fold_bounds (b : list byte) :
  0 <= be_fold b < 256 ^ Z.of_nat (length b).
Proof.
  induction b as [|x b IH].
  - unfold be_fold. simpl. lia.
  - unfold be_fold. cbn [fold_left length]. rewrite be_fold_acc.
    rewrite Nat2Z.inj_succ, Z.pow_succ_r by lia.
    pose proof (Z_of_byte_bounds x).
    revert IH. generalize (256 ^ Z.of_nat (length b)) (be_fold b).
    intros p r IH. nia.
Qed.

(** A [uint64] read from a slice is below [2^64]. *)
Lemma Uint64_bounds (b : list byte) : 0 <= BigEndian_Uint64 b < 2 ^ 64.
Proof.
  unfold BigEndian_Uint64.
  pose proof (be_fold_bounds (firstn 8 b)) as H.
  assert (Hlen : (length (firstn 8 b) <= 8)%nat) by (rewrite length_firstn; lia).
  assert (256 ^ Z.of_nat (length (firstn 8 b)) <= 256 ^ 8)
    by (apply Z.pow_le_mono_r; lia).
  change (2 ^ 64) with (256 ^ 8). lia.
Qed.

(** The first byte is the most significant one. *)
Lemma Uint64_big_endian (b0 b1 b2 b3 b4 b5 b6 b7 : byte) (rest : list byte) :
  BigEndian_Uint64 (b0 :: b1 :: b2 :: b3 :: b4 :: b5 :: b6 :: b7 :: rest)
  = be8 b0 b1 b2 b3 b4 b5 b6 b7.
Proof.
  unfold BigEndian_Uint64, be_fold, be8. cbn [firstn fold_left].
  rewrite firstn_O. cbn [fold_left]. ring.
Qed.

(** Eight bytes inside [data] are read as a big-endian number. *)
Lemma Uint64_of_slice (data : list byte) (lo : nat) :
  (lo + 8 <= length data)%nat ->
  exists b0 b1 b2 b3 b4 b5 b6 b7,
    slice data lo (lo + 8) = [b0; b1; b2; b3; b4; b5; b6; b7]
    /\ BigEndian_Uint64 (slice data lo (lo + 8)) = be8 b0 b1 b2 b3 b4 b5 b6 b7.
Proof.
  intros Hlen. unfold slice.
  replace (lo + 8 - lo)%nat with 8%nat by lia.
  pose proof (length_skipn lo data) as Hs.
  destruct (skipn lo data) as [|b0 [|b1 [|b2 [|b3 [|b4 [|b5 [|b6 [|b7 rest]]]]]]]];
    cbn [length] in Hs; try lia.
  exists b0, b1, b2, b3, b4, b5, b6, b7.
  cbn [firstn]. rewrite firstn_O. split; [reflexivity|].
  apply Uint64_big_endian.
Qed.

Lemma wrap64_small (z : Z) : - 2 ^ 63 <= z < 2 ^ 63 -> wrap64 z = z.
Proof.
  intros H. unfold wrap64. rewrite Z.mod_small; lia.
Qed.

Lemma wrap64_range (z : Z) : - 2 ^ 63 <= wrap64 z < 2 ^ 63.
Proof.
  unfold wrap64. pose proof (Z.mod_pos_bound (z + 2 ^ 63) (2 ^ 64)). lia.
Qed.

Lemma Unix_in_range (s : Z) :
  - 2 ^ 63 <= s + unixToInternal < 2 ^ 63 ->
  Unix s 0 = mkTime (s + unixToInternal) 0.
Proof.
  intros H. unfold Unix. simpl. now rewrite wrap64_small.
Qed.

(** Within the range of a [Duration], [Since] is the exact difference of
    the two instants and the comparison of [Verify] is the comparison of
    the exact quantities. *)
Lemma since_gt_exact (now : Time) (issuedAt validitySeconds : Z) :
  0 <= issuedAt <= 2 ^ 63 - 1 - unixToInternal ->
  0 <= validitySeconds <= 9223372036 ->
  (Since now (Unix issuedAt 0) >? Duration_mul validitySeconds Second)
  = (unixNano now - issuedAt * Second >? validitySeconds * Second).
Proof.
  intros Hi Hv. unfold unixToInternal in Hi.
  rewrite Unix_in_range by (unfold unixToInternal; lia).
  unfold Since, Sub, Duration_mul, unixNano, Second, maxDuration, minDuration.
  cbn [sec nsec]. unfold unixToInternal.
  rewrite wrap64_small by lia.
  repeat match goal with
         | |- context [?a <? ?b] => destruct (Z.ltb_spec a b)
         end;
  repeat match goal with
         | |- context [?a >? ?b] => rewrite (Z.gtb_ltb a b)
         end;
  repeat match goal with
         | |- context [?a <? ?b] => destruct (Z.ltb_spec a b)
         end; try reflexivity; lia.
Qed.

End Clock.

(** ** The API-key verifier *)

Section Verifier.
Import GoBytes GoTime Key.
Local Open Scope Z_scope.

Implicit Types (nonceSize : nat) (v : Verifier) (now : Time).
Implicit Types (verify : list byte -> list byte -> list byte -> bool).

(** [Verify] on a token that decodes to [totalSize] bytes. *)
Lemma Verify_decoded nonceSize verify (v : Verifier) (now : Time) (apiKey : string)
    (data : list byte) :
  Base64.RawURLEncoding_DecodeString apiKey = Some data ->
  length data = totalSize nonceSize ->
  Verify nonceSize verify v now apiKey
  = if expired nonceSize now data then Return (Some ErrAPIKeyExpired)
    else match ed25519_Verify verify (publicKey v)
                 (message nonceSize data) (signature nonceSize data) with
         | None => Panic
         | Some false => Return (Some ErrInvalidSignature)
         | Some true => Return None
         end.
Proof.
  intros Hdec Hlen. unfold Verify. rewrite Hdec, Hlen, Nat.eqb_refl.
  reflexivity.
Qed.

(** In range, the test of [Verify] compares the exact elapsed time with
    the exact validity. *)
Lemma expired_exact nonceSize (now : Time) (data : list byte) :
  issuedAt_u nonceSize data <= 2 ^ 63 - 1 - unixToInternal ->
  validity_u nonceSize data <= 9223372036 ->
  expired nonceSize now data
  = (unixNano now - issuedAt_u nonceSize data * Second
     >? validity_u nonceSize data * Second).
Proof.
  intros Hi Hv. unfold expired, timestamp, validity, int64.
  fold (issuedAt_u nonceSize data). fold (validity_u nonceSize data).
  pose proof (Uint64_bounds (slice data nonceSize (nonceSize + timestampSize))) as Bi.
  pose proof (Uint64_bounds
                (slice data (nonceSize + timestampSize)
                       (nonceSize + timestampSize + validitySize))) as Bv.
  fold (issuedAt_u nonceSize data) in Bi. fold (validity_u nonceSize data) in Bv.
  unfold unixToInternal in Hi.
  rewrite !wrap64_small by lia.
  apply since_gt_exact; unfold unixToInternal; lia.
Qed.

(** C4. [Verify] checks in a fixed order and stops at the first failure:
    text that does not decode gives [ErrInvalidKeyFormat]; text that
    decodes to a wrong number of bytes gives [ErrInvalidKeyLength]; a
    token of the right length that is expired gives [ErrAPIKeyExpired];
    in these three cases the outcome is the same for every key and every
    signature equation, so neither is consulted.  Only a token that passed
    the three checks reaches the signature. *)
Theorem verify_error_order nonceSize verify (v : Verifier) (now : Time) (apiKey : string) :
  (Base64.RawURLEncoding_DecodeString apiKey = None ->
   Verify nonceSize verify v now apiKey = Return (Some ErrInvalidKeyFormat))
  /\ (forall data,
         Base64.RawURLEncoding_DecodeString apiKey = Some data ->
         length data <> totalSize nonceSize ->
         Verify nonceSize verify v now apiKey = Return (Some ErrInvalidKeyLength))
  /\ (forall data,
         Base64.RawURLEncoding_DecodeString apiKey = Some data ->
         length data = totalSize nonceSize ->
         expired nonceSize now data = true ->
         Verify nonceSize verify v now apiKey = Return (Some ErrAPIKeyExpired))
  /\ (forall data,
         Base64.RawURLEncoding_DecodeString apiKey = Some data ->
         length data = totalSize nonceSize ->
         expired nonceSize now data = false ->
         Verify nonceSize verify v now apiKey
         = match ed25519_Verify verify (publicKey v)
                   (message nonceSize data) (signature nonceSize data) with
           | None => Panic
           | Some false => Return (Some ErrInvalidSignature)
           | Some true => Return None
           end)
  /\ (forall verify' v',
         (Base64.RawURLEncoding_DecodeString apiKey = None
          \/ exists data,
               Base64.RawURLEncoding_DecodeString apiKey = Some data
               /\ (length data <> totalSize nonceSize
                   \/ expired nonceSize now data = true)) ->
         Verify nonceSize verify' v' now apiKey
         = Verify nonceSize verify v now apiKey).
Proof.
  assert (Hlen : forall f w data,
             Base64.RawURLEncoding_DecodeString apiKey = Some data ->
             length data <> totalSize nonceSize ->
             Verify nonceSize f w now apiKey = Return (Some ErrInvalidKeyLength)).
  { intros f w data Hdec Hne. unfold Verify. rewrite Hdec.
    apply Nat.eqb_neq in Hne. now rewrite Hne. }
  assert (Hexp : forall f w data,
             Base64.RawURLEncoding_DecodeString apiKey = Some data ->
             length data = totalSize nonceSize ->
             expired nonceSize now data = true ->
             Verify nonceSize f w now apiKey = Return (Some ErrAPIKeyExpired)).
  { intros f w data Hdec Heq He.
    rewrite (Verify_decoded nonceSize f w now apiKey data Hdec Heq).
    now rewrite He. }
  split; [intros Hdec; unfold Verify; now rewrite Hdec|].
  split; [apply Hlen|]. split; [apply Hexp|].
  split.
  - intros data Hdec Heq He.
    rewrite (Verify_decoded nonceSize verify v now apiKey data Hdec Heq).
    now rewrite He.
  - intros verify' v' [Hdec | [data [Hdec [Hne | He]]]].
    + unfold Verify. now rewrite Hdec.
    + now rewrite !(Hlen _ _ data Hdec Hne).
    + destruct (Nat.eq_dec (length data) (totalSize nonceSize)) as [Heq | Hne].
      * now rewrite !(Hexp _ _ data Hdec Heq He).
      * now rewrite !(Hlen _ _ data Hdec Hne).
Qed.

(** C10. [NewVerifier] accepts every text that decodes, whatever the
    number of bytes of the key; with a key that does not have the 32 bytes
    of an Ed25519 public key, every token that passes the format, length
    and expiry checks makes [Verify] panic instead of returning
    [ErrInvalidSignature]. *)
Theorem wrong_size_key_panics nonceSize verify (publicKey : string) (pk : list byte)
    (Hkey : Base64.RawURLEncoding_DecodeString publicKey = Some pk) :
  NewVerifier publicKey = Some (mkVerifier pk)
  /\ (length pk <> PublicKeySize ->
      forall now apiKey data,
        Base64.RawURLEncoding_DecodeString apiKey = Some data ->
        length data = totalSize nonceSize ->
        expired nonceSize now data = false ->
        Verify nonceSize verify (mkVerifier pk) now apiKey = Panic).
Proof.
  split; [unfold NewVerifier; now rewrite Hkey|].
  intros Hsize now apiKey data Hdec Hlen He.
  rewrite (Verify_decoded nonceSize verify _ now apiKey data Hdec Hlen), He.
  unfold ed25519_Verify. cbn [Key.publicKey].
  apply Nat.eqb_neq in Hsize. now rewrite Hsize.
Qed.

(** C2, as amended.  For a token of the right length, correctly signed
    for a 32-byte key, whose [validitySeconds] is at most 9223372036 (the
    largest number of seconds a [Duration] holds): [Verify] succeeds when
    the time elapsed since [issuedAt] equals the validity exactly, and
    fails with [ErrAPIKeyExpired] when it is strictly greater. *)
Theorem verify_validity_boundary nonceSize verify (v : Verifier) (now : Time)
    (apiKey : string) (data : list byte)
    (Hdec : Base64.RawURLEncoding_DecodeString apiKey = Some data)
    (Hlen : length data = totalSize nonceSize)
    (Hkey : length (publicKey v) = PublicKeySize)
    (Hsig : verify (publicKey v) (message nonceSize data)
                   (signature nonceSize data) = true)
    (Hnow : wf now)
    (Hval : validity_u nonceSize data <= 9223372036) :
  let elapsed := unixNano now - issuedAt_u nonceSize data * Second in
  (elapsed = validity_u nonceSize data * Second ->
   Verify nonceSize verify v now apiKey = Return None)
  /\ (elapsed > validity_u nonceSize data * Second ->
      Verify nonceSize verify v now apiKey = Return (Some ErrAPIKeyExpired)).
Proof.
  intros elapsed.
  pose proof (Uint64_bounds
                (slice data (nonceSize + timestampSize)
                       (nonceSize + timestampSize + validitySize))) as Bv.
  fold (validity_u nonceSize data) in Bv.
  rewrite (Verify_decoded nonceSize verify v now apiKey data Hdec Hlen).
  assert (Hiss : elapsed >= 0 ->
                 issuedAt_u nonceSize data <= 2 ^ 63 - 1 - unixToInternal).
  { subst elapsed. destruct Hnow as [Hs Hn].
    unfold unixNano, Second, unixToInternal in *. lia. }
  split; intros He.
  - rewrite expired_exact by (try apply Hiss; unfold Second in *; lia).
    fold elapsed. rewrite He, Z.gtb_ltb, Z.ltb_irrefl.
    unfold ed25519_Verify. now rewrite Hkey, Nat.eqb_refl, Hsig.
  - rewrite expired_exact by (try apply Hiss; unfold Second in *; lia).
    fold elapsed. rewrite Z.gtb_ltb.
    destruct (Z.ltb_spec (validity_u nonceSize data * Second) elapsed);
      [reflexivity | lia].
Qed.

(** C7, as amended.  A token of the right length, correctly signed for a
    32-byte key, whose [issuedAt] is at most [2^63 - 1 - 62135596800] and
    lies in the future, and whose [validitySeconds] is at most 9223372036,
    verifies successfully. *)
Theorem future_token_verifies_in_range nonceSize verify (v : Verifier) (now : Time)
    (apiKey : string) (data : list byte)
    (Hdec : Base64.RawURLEncoding_DecodeString apiKey = Some data)
    (Hlen : length data = totalSize nonceSize)
    (Hkey : length (publicKey v) = PublicKeySize)
    (Hsig : verify (publicKey v) (message nonceSize data)
                   (signature nonceSize data) = true)
    (Hiss : issuedAt_u nonceSize data <= 2 ^ 63 - 1 - unixToInternal)
    (Hval : validity_u nonceSize data <= 9223372036)
    (Hfuture : issuedAt_u nonceSize data * Second > unixNano now) :
  Verify nonceSize verify v now apiKey = Return None.
Proof.
  pose proof (Uint64_bounds
                (slice data (nonceSize + timestampSize)
                       (nonceSize + timestampSize + validitySize))) as Bv.
  fold (validity_u nonceSize data) in Bv.
  rewrite (Verify_decoded nonceSize verify v now apiKey data Hdec Hlen).
  rewrite expired_exact by assumption.
  rewrite Z.gtb_ltb.
  destruct (Z.ltb_spec (validity_u nonceSize data * Second)
              (unixNano now - issuedAt_u nonceSize data * Second));
    [unfold Second in *; lia|].
  unfold ed25519_Verify. now rewrite Hkey, Nat.eqb_refl, Hsig.
Qed.

(** C9, as amended.  The two fields are the big-endian numbers written by
    their eight bytes, below [2^64], and [Verify] converts them to
    [int64]; when [issuedAt] is at most [2^63 - 1 - 62135596800] and
    [validitySeconds] at most 9223372036, so that neither the conversion
    nor the product with [time.Second] wraps, the expiry decision is the
    comparison of the elapsed time with the validity under the unsigned
    reading. *)
Theorem expiry_follows_unsigned_in_range nonceSize (now : Time)
    (data : list byte) (Hlen : length data = totalSize nonceSize) :
  (exists b0 b1 b2 b3 b4 b5 b6 b7,
      slice data nonceSize (nonceSize + timestampSize)
      = [b0; b1; b2; b3; b4; b5; b6; b7]
      /\ issuedAt_u nonceSize data = be8 b0 b1 b2 b3 b4 b5 b6 b7)
  /\ (exists b0 b1 b2 b3 b4 b5 b6 b7,
         slice data (nonceSize + timestampSize)
               (nonceSize + timestampSize + validitySize)
         = [b0; b1; b2; b3; b4; b5; b6; b7]
         /\ validity_u nonceSize data = be8 b0 b1 b2 b3 b4 b5 b6 b7)
  /\ 0 <= issuedAt_u nonceSize data < 2 ^ 64
  /\ 0 <= validity_u nonceSize data < 2 ^ 64
  /\ timestamp nonceSize data = wrap64 (issuedAt_u nonceSize data)
  /\ validity nonceSize data = wrap64 (validity_u nonceSize data)
  /\ (issuedAt_u nonceSize data <= 2 ^ 63 - 1 - unixToInternal ->
      validity_u nonceSize data <= 9223372036 ->
      expired nonceSize now data
      = (unixNano now - issuedAt_u nonceSize data * Second
         >? validity_u nonceSize data * Second)).
Proof.
  unfold totalSize, timestampSize, validitySize, signatureSize in Hlen.
  split; [|split].
  - unfold issuedAt_u, timestampSize. apply Uint64_of_slice. lia.
  - unfold validity_u, timestampSize, validitySize.
    apply Uint64_of_slice. lia.
  - split; [apply Uint64_bounds|]. split; [apply Uint64_bounds|].
    split; [reflexivity|]. split; [reflexivity|].
    apply expired_exact.
Qed.

End Verifier.

(** ** The verifier on concrete tokens *)

Section VerifierExamples.
Import GoBytes GoTime Key Fixtures.
Local Open Scope Z_scope.

Example tok_decodes :
  Base64.RawURLEncoding_DecodeString (tok 1700000000 60)
  = Some (tok_bytes 1700000000 60)
  /\ length (tok_bytes 1700000000 60) = totalSize 16
  /\ issuedAt_u 16 (tok_bytes 1700000000 60) = 1700000000
  /\ validity_u 16 (tok_bytes 1700000000 60) = 60.
Proof. vm_compute. repeat split; reflexivity. Qed.

Lemma verify_error_order_witness :
  Verify 16 accept_all v32 (Unix 1700000000 0) "not base64!"
  = Return (Some ErrInvalidKeyFormat)
  /\ Verify 16 reject_all v32 (Unix 1700000000 0) "AAAA"
     = Return (Some ErrInvalidKeyLength)
  /\ Verify 16 reject_all v32 (Unix 1700000061 0) (tok 1700000000 60)
     = Return (Some ErrAPIKeyExpired)
  /\ Verify 16 reject_all v32 (Unix 1700000000 0) (tok 1700000000 60)
     = Return (Some ErrInvalidSignature).
Proof.
  split; [|split; [|split]].
  - apply (proj1 (verify_error_order 16 accept_all v32
                    (Unix 1700000000 0) "not base64!")).
    vm_compute. reflexivity.
  - apply (proj1 (proj2 (verify_error_order 16 reject_all v32
                           (Unix 1700000000 0) "AAAA")) [x00; x00; x00]).
    + vm_compute. reflexivity.
    + vm_compute. discriminate.
  - apply (proj1 (proj2 (proj2 (verify_error_order 16 reject_all v32
                                  (Unix 1700000061 0) (tok 1700000000 60))))
                 (tok_bytes 1700000000 60)).
    + vm_compute. reflexivity.
    + vm_compute. reflexivity.
    + vm_compute. reflexivity.
  - rewrite (proj1 (proj2 (proj2 (proj2
               (verify_error_order 16 reject_all v32
                  (Unix 1700000000 0) (tok 1700000000 60)))))
               (tok_bytes 1700000000 60)).
    + vm_compute. reflexivity.
    + vm_compute. reflexivity.
    + vm_compute. reflexivity.
    + vm_compute. reflexivity.
Defined.

Lemma wrong_size_key_panics_witness :
  NewVerifier "AAAA" = Some (mkVerifier [x00; x00; x00])
  /\ Verify 16 accept_all (mkVerifier [x00; x00; x00])
            (Unix 1700000000 0) (tok 1700000000 60) = Panic.
Proof.
  destruct (wrong_size_key_panics 16 accept_all "AAAA" [x00; x00; x00])
    as [Hnew Hpanic]; [vm_compute; reflexivity|].
  split; [exact Hnew|].
  apply (Hpanic ltac:(vm_compute; discriminate) (Unix 1700000000 0)
                (tok 1700000000 60) (tok_bytes 1700000000 60));
    vm_compute; reflexivity.
Defined.

Lemma verify_validity_boundary_witness :
  Verify 16 accept_all v32 (Unix 1700000060 0) (tok 1700000000 60)
  = Return None
  /\ Verify 16 accept_all v32 (Unix 1700000061 0) (tok 1700000000 60)
     = Return (Some ErrAPIKeyExpired).
Proof.
  split.
  - apply (proj1 (verify_validity_boundary 16 accept_all v32
                    (Unix 1700000060 0) (tok 1700000000 60)
                    (tok_bytes 1700000000 60)
                    ltac:(vm_compute; reflexivity)
                    ltac:(vm_compute; reflexivity)
                    ltac:(vm_compute; reflexivity)
                    ltac:(vm_compute; reflexivity)
                    ltac:(unfold wf; vm_compute; intuition discriminate)
                    ltac:(vm_compute; discriminate))).
    vm_compute. reflexivity.
  - apply (proj2 (verify_validity_boundary 16 accept_all v32
                    (Unix 1700000061 0) (tok 1700000000 60)
                    (tok_bytes 1700000000 60)
                    ltac:(vm_compute; reflexivity)
                    ltac:(vm_compute; reflexivity)
                    ltac:(vm_compute; reflexivity)
                    ltac:(vm_compute; reflexivity)
                    ltac:(unfold wf; vm_compute; intuition discriminate)
                    ltac:(vm_compute; discriminate))).
    vm_compute. reflexivity.
Defined.

(** C2 as stated fails once the validity exceeds what a [Duration] holds:
    with [issuedAt = 0], [validitySeconds = 9223372037] and the clock at
    exactly 9223372037 seconds after the epoch, the elapsed time equals
    the validity, the product [validity * time.Second] has wrapped to a
    negative [Duration], [time.Since] has saturated at the largest one,
    and [Verify] answers [ErrAPIKeyExpired]. *)
Lemma boundary_fails_beyond_duration_range :
  let now := Unix 9223372037 0 in
  let data := tok_bytes 0 9223372037 in
  Base64.RawURLEncoding_DecodeString (tok 0 9223372037) = Some data
  /\ length data = totalSize 16
  /\ length (publicKey v32) = PublicKeySize
  /\ accept_all (publicKey v32) (message 16 data) (signature 16 data) = true
  /\ wf now
  /\ unixNano now - issuedAt_u 16 data * Second = validity_u 16 data * Second
  /\ Since now (Unix (timestamp 16 data) 0) = maxDuration
  /\ Duration_mul (validity 16 data) Second = -9223372036709551616
  /\ Verify 16 accept_all v32 now (tok 0 9223372037)
     = Return (Some ErrAPIKeyExpired).
Proof.
  unfold wf. vm_compute. intuition (reflexivity || discriminate).
Qed.

(** The comparison is made in nanoseconds: half a second after the
    boundary instant the whole seconds elapsed still equal the validity,
    and the token is expired. *)
Lemma boundary_second_expires_after_first_instant :
  let now := Unix 1700000060 500000000 in
  let data := tok_bytes 1700000000 60 in
  unixNano now / Second - issuedAt_u 16 data = validity_u 16 data
  /\ Verify 16 accept_all v32 now (tok 1700000000 60)
     = Return (Some ErrAPIKeyExpired).
Proof. vm_compute. split; reflexivity. Qed.

Lemma future_token_verifies_in_range_witness :
  Verify 16 accept_all v32 (Unix 1700000000 0) (tok 1700000060 300)
  = Return None.
Proof.
  apply (future_token_verifies_in_range 16 accept_all v32
           (Unix 1700000000 0) (tok 1700000060 300)
           (tok_bytes 1700000060 300));
    try (vm_compute; reflexivity); vm_compute; discriminate.
Defined.

(** C7 as stated fails for a validity with the high bit set: the token is
    issued one second after the clock reading
    1700000000.5 s, its [validitySeconds] is [2^64 - 1], which [Verify]
    reads as [-1]; the elapsed time, minus half a second, exceeds minus
    one second and [Verify] answers [ErrAPIKeyExpired]. *)
Lemma future_token_expired_with_wrapped_validity :
  let now := Unix 1700000000 500000000 in
  let data := tok_bytes 1700000001 (2 ^ 64 - 1) in
  Base64.RawURLEncoding_DecodeString (tok 1700000001 (2 ^ 64 - 1)) = Some data
  /\ length data = totalSize 16
  /\ length (publicKey v32) = PublicKeySize
  /\ accept_all (publicKey v32) (message 16 data) (signature 16 data) = true
  /\ wf now
  /\ issuedAt_u 16 data * Second > unixNano now
  /\ validity 16 data = -1
  /\ Verify 16 accept_all v32 now (tok 1700000001 (2 ^ 64 - 1))
     = Return (Some ErrAPIKeyExpired).
Proof.
  unfold wf. vm_compute. intuition (reflexivity || discriminate).
Qed.

Lemma expiry_follows_unsigned_in_range_witness :
  expired 16 (Unix 1700000061 0) (tok_bytes 1700000000 60)
  = (unixNano (Unix 1700000061 0)
     - issuedAt_u 16 (tok_bytes 1700000000 60) * Second
     >? validity_u 16 (tok_bytes 1700000000 60) * Second).
Proof.
  destruct (expiry_follows_unsigned_in_range 16 (Unix 1700000061 0)
              (tok_bytes 1700000000 60) ltac:(vm_compute; reflexivity))
    as (_ & _ & _ & _ & _ & _ & Hexact).
  apply Hexact; vm_compute; discriminate.
Defined.

(** C9 as stated fails for fields with the high bit set.  A validity of
    [2^64 - 1] seconds is never exceeded under the unsigned reading, yet
    the token is expired at the very second it was issued; an [issuedAt]
    of [2^63] lies in the future under the unsigned reading, yet the
    token is expired, [Verify] reading the field as [-2^63]. *)
Lemma high_bit_fields_read_signed :
  let now := Unix 1700000000 0 in
  let long_lived := tok_bytes 1700000000 (2 ^ 64 - 1) in
  let far_future := tok_bytes (2 ^ 63) 60 in
  length long_lived = totalSize 16
  /\ validity_u 16 long_lived = 2 ^ 64 - 1
  /\ (unixNano now - issuedAt_u 16 long_lived * Second
      >? validity_u 16 long_lived * Second) = false
  /\ expired 16 now long_lived = true
  /\ length far_future = totalSize 16
  /\ issuedAt_u 16 far_future = 2 ^ 63
  /\ timestamp 16 far_future = - 2 ^ 63
  /\ (unixNano now - issuedAt_u 16 far_future * Second
      >? validity_u 16 far_future * Second) = false
  /\ expired 16 now far_future = true.
Proof.
  vm_compute. intuition (reflexivity || discriminate).
Qed.

End VerifierExamples.

(** ** The HTTP handlers *)

Section Handlers.
Import GoBytes Http Shim.

Implicit Types (w : ResponseWriter) (r : Request).
Implicit Types (json_Marshal : Document -> list byte).
Implicit Types (DetectContentType : list byte -> string).

(** Deleting the three headers before setting them changes nothing: the
    two versions of [cors] are the same function. *)
Lemma cors_variants_agree w r : Variant.cors w r = MainGo.cors w r.
Proof.
  unfold Variant.cors, MainGo.cors, Header_Set, Header_Del. cbn [header wroteHeader status sent written].
  assert (Heq :
    <["Access-Control-Allow-Headers"%string := ["*"%string]]>
      (<["Access-Control-Allow-Methods"%string := ["*"%string]]>
         (<["Access-Control-Allow-Origin"%string := ["*"%string]]>
            (delete "Access-Control-Allow-Headers"%string
               (delete "Access-Control-Allow-Methods"%string
                  (delete "Access-Control-Allow-Origin"%string (header w))))))
    = <["Access-Control-Allow-Headers"%string := ["*"%string]]>
        (<["Access-Control-Allow-Methods"%string := ["*"%string]]>
           (<["Access-Control-Allow-Origin"%string := ["*"%string]]> (header w)))).
  { apply map_eq. intros k.
    rewrite !lookup_insert, !lookup_delete.
    repeat case_decide; try reflexivity; congruence. }
  rewrite Heq. reflexivity.
Qed.

(** After [cors], each of the three headers holds the single value [*],
    whatever the writer held before. *)
Lemma cors_headers w r :
  header (MainGo.cors w r) !! "Access-Control-Allow-Origin"%string = Some ["*"%string]
  /\ header (MainGo.cors w r) !! "Access-Control-Allow-Methods"%string = Some ["*"%string]
  /\ header (MainGo.cors w r) !! "Access-Control-Allow-Headers"%string = Some ["*"%string].
Proof.
  unfold MainGo.cors, Header_Set, WriteHeader.
  destruct (String.eqb (Method r) "OPTIONS"); cbn [header wroteHeader];
    [destruct (wroteHeader w); cbn [header]|];
    repeat split; rewrite !lookup_insert;
    repeat case_decide; try reflexivity; congruence.
Qed.

Lemma attestationHandler_variants_agree json_Marshal att w r :
  attestationHandler json_Marshal Variant.cors att w r
  = attestationHandler json_Marshal MainGo.cors att w r.
Proof.
  unfold attestationHandler. now rewrite cors_variants_agree.
Qed.

(** The writer when the attestation handler returns, for any method: the
    headers were fixed by a [WriteHeader] that precedes the
    [Content-Type] assignment. *)
Lemma attestationHandler_writer json_Marshal att r :
  let w := attestationHandler json_Marshal MainGo.cors att newWriter r in
  wroteHeader w = true
  /\ status w = 200
  /\ written w = json_Marshal att ++ [x0a]
  /\ sent w = header (MainGo.cors newWriter r)
  /\ header w
     = <["Content-Type"%string := ["application/json"%string]]>
         (header (MainGo.cors newWriter r)).
Proof.
  unfold attestationHandler, MainGo.cors.
  destruct (String.eqb (Method r) "OPTIONS"); repeat split; reflexivity.
Qed.

(** The response of the attestation endpoint, for any method. *)
Lemma attestation_response json_Marshal DetectContentType att r :
  let w := attestationHandler json_Marshal MainGo.cors att newWriter r in
  let resp := finish DetectContentType w in
  StatusCode resp = 200
  /\ RespBody resp = json_Marshal att ++ [x0a]
  /\ RespHeader resp !! "Access-Control-Allow-Origin"%string = Some ["*"%string]
  /\ RespHeader resp !! "Access-Control-Allow-Methods"%string = Some ["*"%string]
  /\ RespHeader resp !! "Access-Control-Allow-Headers"%string = Some ["*"%string]
  /\ header w !! "Content-Type"%string = Some ["application/json"%string]
  /\ sent w !! "Content-Type"%string = None
  /\ RespHeader resp !! "Content-Type"%string
     = Some [DetectContentType (json_Marshal att ++ [x0a])].
Proof.
  intros w resp.
  destruct (attestationHandler_writer json_Marshal att r)
    as (Hwrote & Hstatus & Hbody & Hsent & Hheader).
  fold w in Hwrote, Hstatus, Hbody, Hsent, Hheader.
  destruct (cors_headers newWriter r) as (Ho & Hm & Hh).
  assert (Hct : sent w !! "Content-Type"%string = None).
  { rewrite Hsent. unfold MainGo.cors, Header_Set, WriteHeader.
    destruct (String.eqb (Method r) "OPTIONS"); cbn [header wroteHeader newWriter];
      rewrite !lookup_insert; repeat case_decide; try congruence;
      apply lookup_empty. }
  assert (Hresp : resp
                  = mkResponse 200
                      (<["Content-Type"%string
                         := [DetectContentType (json_Marshal att ++ [x0a])]]>
                         (sent w))
                      (json_Marshal att ++ [x0a])).
  { subst resp. unfold finish. rewrite Hwrote, Hct, Hstatus, Hbody.
    destruct (json_Marshal att); reflexivity. }
  rewrite Hresp. cbn [StatusCode RespBody RespHeader]. rewrite Hsent.
  split; [reflexivity|]. split; [reflexivity|].
  split; [rewrite lookup_insert_ne by congruence; exact Ho|].
  split; [rewrite lookup_insert_ne by congruence; exact Hm|].
  split; [rewrite lookup_insert_ne by congruence; exact Hh|].
  split; [rewrite Hheader; apply lookup_insert_eq|].
  split; [rewrite <- Hsent; exact Hct|].
  apply lookup_insert_eq.
Qed.

(** C5, on the code.  An [OPTIONS] request to the attestation endpoint is
    answered with status 200 and the wildcard CORS headers, but the
    [return] of [cors] leaves only [cors]: the handler goes on, the
    document is serialized and the body is not empty.  The same holds in
    the three [main] files. *)
Theorem options_attestation_writes_document json_Marshal DetectContentType
    (s : MainGo.Server) (s' : Variant.Server) :
  let r := mkRequest "OPTIONS" wellKnown in
  let resp := finish DetectContentType (writer_of (MainGo.serve json_Marshal s r)) in
  let resp' := finish DetectContentType (writer_of (Variant.serve json_Marshal s' r)) in
  StatusCode resp = 200
  /\ RespHeader resp !! "Access-Control-Allow-Origin"%string = Some ["*"%string]
  /\ RespHeader resp !! "Access-Control-Allow-Methods"%string = Some ["*"%string]
  /\ RespHeader resp !! "Access-Control-Allow-Headers"%string = Some ["*"%string]
  /\ RespBody resp = json_Marshal (MainGo.att s) ++ [x0a]
  /\ RespBody resp <> []
  /\ RespBody resp' = json_Marshal (Variant.att s') ++ [x0a]
  /\ RespBody resp' <> [].
Proof.
  intros r resp resp'.
  assert (Hne : forall l : list byte, l ++ [x0a] <> [])
    by (intros [|x l]; discriminate).
  destruct (attestation_response json_Marshal DetectContentType (MainGo.att s) r)
    as (H1 & H2 & H3 & H4 & H5 & _).
  destruct (attestation_response json_Marshal DetectContentType (Variant.att s') r)
    as (_ & H2' & _).
  assert (Hresp' : RespBody resp' = json_Marshal (Variant.att s') ++ [x0a]).
  { subst resp'. unfold Variant.serve. cbn [Path r].
    change (String.eqb wellKnown wellKnown) with true. cbn [writer_of].
    rewrite attestationHandler_variants_agree. exact H2'. }
  repeat split; try assumption.
  - change (RespBody resp) with
      (RespBody (finish DetectContentType
                   (attestationHandler json_Marshal MainGo.cors (MainGo.att s) newWriter r))).
    rewrite H2. apply Hne.
  - rewrite Hresp'. apply Hne.
Qed.

(** C6, on the code.  A [GET] request to the attestation endpoint is
    answered with status 200, the serialized document followed by a
    newline, and the three wildcard CORS headers, each with one value;
    but [Content-Type: application/json] is assigned after [WriteHeader],
    so it stays in the handler's map and is not among the headers sent:
    the response carries the content type the server sniffs from the
    body. *)
Theorem get_attestation_content_type_not_sent json_Marshal DetectContentType
    (s : MainGo.Server) :
  let r := mkRequest "GET" wellKnown in
  let w := writer_of (MainGo.serve json_Marshal s r) in
  let resp := finish DetectContentType w in
  StatusCode resp = 200
  /\ RespBody resp = json_Marshal (MainGo.att s) ++ [x0a]
  /\ RespHeader resp !! "Access-Control-Allow-Origin"%string = Some ["*"%string]
  /\ RespHeader resp !! "Access-Control-Allow-Methods"%string = Some ["*"%string]
  /\ RespHeader resp !! "Access-Control-Allow-Headers"%string = Some ["*"%string]
  /\ header w !! "Content-Type"%string = Some ["application/json"%string]
  /\ sent w !! "Content-Type"%string = None
  /\ RespHeader resp !! "Content-Type"%string
     = Some [DetectContentType (json_Marshal (MainGo.att s) ++ [x0a])].
Proof.
  intros r w resp.
  exact (attestation_response json_Marshal DetectContentType (MainGo.att s) r).
Qed.

(** *** The path gate *)

Lemma allowed_iff (urlPath : string) (paths : list string) :
  allowed urlPath paths = true <-> In urlPath paths.
Proof.
  induction paths as [|p rest IH]; simpl.
  - split; [discriminate | tauto].
  - destruct (String.eqb_spec urlPath p) as [-> | Hne].
    + split; auto.
    + rewrite IH. split; [auto | intros [Heq | Hin]; [congruence | exact Hin]].
Qed.

(** The writer after a denial: the body is the message and a newline,
    and the status is 403 unless a header was already written. *)
Lemma Error_writer w (msg : string) (code : nat) :
  written (Error w msg code) = written w ++ list_byte_of_string msg ++ [x0a]
  /\ status (Error w msg code) = (if wroteHeader w then status w else code).
Proof.
  unfold Error, Write, WriteHeader, Header_Set, Header_Del.
  cbn [header wroteHeader status sent written].
  destruct (wroteHeader w); cbn [header wroteHeader status sent written];
    split; reflexivity.
Qed.

(** The gate on a list of paths: an empty list admits every path, a
    non-empty list admits exactly its entries, compared as whole strings;
    a path that is not admitted is answered by [http.Error] and not
    forwarded. *)
Lemma gate_admits (paths : list string) (up : Upstream) w r :
  (paths = [] -> gate paths up w r = Forwarded w up)
  /\ (paths <> [] -> In (Path r) paths -> gate paths up w r = Forwarded w up)
  /\ (paths <> [] -> ~ In (Path r) paths ->
      gate paths up w r = Responded (Error w "shim: 403" StatusForbidden)).
Proof.
  unfold gate. destruct paths as [|p rest].
  - split; [reflexivity | split; intros H; congruence].
  - cbn [length Nat.ltb Nat.leb].
    split; [discriminate|]. split; intros _ Hin.
    + apply allowed_iff in Hin. now rewrite Hin.
    + destruct (allowed (Path r) (p :: rest)) eqn:Ha; [|reflexivity].
      apply allowed_iff in Ha. contradiction.
Qed.

(** With the list of the YAML file, the proxy handler is the gate of the
    design: everything passes an empty list, and a non-empty list passes
    its entries only, the others getting 403 and the fixed body. *)
Lemma yaml_gate json_Marshal SevGuestV1 ReportSize (configPaths : list string)
    (up : Z) (raw : list byte) provider (s : Variant.Server) r :
  Variant.main_yaml SevGuestV1 ReportSize configPaths up raw provider = Ok s ->
  Path r <> wellKnown ->
  (configPaths = [] -> exists u, Variant.serve json_Marshal s r = Forwarded newWriter u)
  /\ (configPaths <> [] -> In (Path r) configPaths ->
      exists u, Variant.serve json_Marshal s r = Forwarded newWriter u)
  /\ (configPaths <> [] -> ~ In (Path r) configPaths ->
      exists w, Variant.serve json_Marshal s r = Responded w
                /\ status w = 403
                /\ written w = list_byte_of_string "shim: 403" ++ [x0a]).
Proof.
  intros Hmain Hwk. unfold Variant.main_yaml in Hmain.
  destruct (attestationReport _ _ _ _) as [att|e]; [|discriminate].
  injection Hmain as <-.
  unfold Variant.serve, Variant.proxyHandler.
  apply String.eqb_neq in Hwk. rewrite Hwk. cbn [Variant.paths].
  destruct (gate_admits configPaths
              (Variant.director (Variant.mkServer configPaths up att))
              newWriter r) as (He & Hin & Hout).
  split; [|split].
  - intros H. eexists. now apply He.
  - intros H1 H2. eexists. now apply Hin.
  - intros H1 H2. eexists. split; [now apply Hout|].
    split; [reflexivity|]. apply Error_writer.
Qed.

(** C3, on the code of [main.go].  The allowed paths come from
    [strings.Split] on the flag [-p], which never yields an empty list:
    with the flag left empty (its default, documented as allowing every
    path) the list is the one-element list holding the empty string, and
    every request for a non-empty path is answered with the body of the
    denial and never forwarded.  The handler has called [cors] before the
    check, so for an [OPTIONS] request the status of the denial is 200. *)
Theorem empty_paths_flag_denies_all json_Marshal SevGuestV1 ReportSize
    (headers : string) (up : Z) (raw : list byte) provider
    (s : MainGo.Server) r
    (Hmain : MainGo.main SevGuestV1 ReportSize headers "" up raw provider = Ok s)
    (Hpath : Path r <> ""%string)
    (Hwk : Path r <> wellKnown) :
  MainGo.paths s = [""%string]
  /\ exists w,
       MainGo.serve json_Marshal s r = Responded w
       /\ written w = list_byte_of_string "shim: 403" ++ [x0a]
       /\ status w = (if String.eqb (Method r) "OPTIONS" then 200 else 403).
Proof.
  unfold MainGo.main in Hmain.
  destruct (MainGo.parseHeaders _ _) as [headerMap|e]; [|discriminate].
  destruct (attestationReport _ _ _ _) as [att|e]; [|discriminate].
  injection Hmain as <-. cbn [MainGo.paths Strings.Split].
  split; [reflexivity|].
  unfold MainGo.serve, MainGo.proxyHandler.
  apply String.eqb_neq in Hwk. rewrite Hwk. cbn [MainGo.paths Strings.Split].
  unfold gate. cbn [length Nat.ltb Nat.leb allowed].
  apply String.eqb_neq in Hpath. rewrite Hpath.
  eexists. split; [reflexivity|].
  destruct (Error_writer (MainGo.cors newWriter r) "shim: 403" StatusForbidden)
    as [Hbody Hstatus].
  rewrite Hbody, Hstatus. unfold MainGo.cors, WriteHeader, Header_Set.
  destruct (String.eqb (Method r) "OPTIONS"); split; reflexivity.
Qed.

(** The flag-driven variant has the same list and denies with 403. *)
Lemma variant_empty_paths_flag_denies_all json_Marshal SevGuestV1 ReportSize
    (up : Z) (raw : list byte) provider (s : Variant.Server) r :
  Variant.main_flags SevGuestV1 ReportSize "" up raw provider = Ok s ->
  Path r <> ""%string ->
  Path r <> wellKnown ->
  exists w,
    Variant.serve json_Marshal s r = Responded w
    /\ written w = list_byte_of_string "shim: 403" ++ [x0a]
    /\ status w = 403.
Proof.
  intros Hmain Hpath Hwk. unfold Variant.main_flags in Hmain.
  destruct (attestationReport _ _ _ _) as [att|e]; [|discriminate].
  injection Hmain as <-.
  unfold Variant.serve, Variant.proxyHandler.
  apply String.eqb_neq in Hwk. rewrite Hwk. cbn [Variant.paths Strings.Split].
  unfold gate. cbn [length Nat.ltb Nat.leb allowed].
  apply String.eqb_neq in Hpath. rewrite Hpath.
  eexists. split; [reflexivity|]. split; reflexivity.
Qed.

Lemma empty_paths_flag_denies_all_witness :
  exists w,
    MainGo.serve Fixtures.marshal
      (MainGo.mkServer [""%string] {["X-Shim"%string := "1"%string]} 8080
         (mkDocument "sev" "AQEB"))
      (mkRequest "GET" "/")
    = Responded w
    /\ written w = list_byte_of_string "shim: 403" ++ [x0a]
    /\ status w = 403.
Proof.
  refine (proj2 (empty_paths_flag_denies_all Fixtures.marshal "sev" 3
                   "X-Shim:1" 8080 [] (Some (Fixtures.provider 5))
                   (MainGo.mkServer [""%string] {["X-Shim"%string := "1"%string]} 8080
                      (mkDocument "sev" "AQEB"))
                   (mkRequest "GET" "/") _ _ _)).
  - vm_compute. reflexivity.
  - discriminate.
  - discriminate.
Defined.

End Handlers.

(** * More of the code *)

Section SplitJoin.
Import Strings GoStrings.

Lemma Split_nonempty (s : string) (sep : ascii) : Split s sep <> [].
Proof.
  destruct s as [|c s]; simpl; [discriminate|].
  destruct (Ascii.eqb c sep); [discriminate|].
  destruct (Split s sep); discriminate.
Qed.

Lemma Split_cons (c : ascii) (s : string) (sep : ascii) :
  Split (String c s) sep
  = if Ascii.eqb c sep then EmptyString :: Split s sep
    else match Split s sep with
         | piece :: pieces => String c piece :: pieces
         | [] => [String c EmptyString]
         end.
Proof. reflexivity. Qed.

Lemma Split_length (s : string) (sep : ascii) :
  length (Split s sep) = S (Count s sep).
Proof.
  induction s as [|c s IH]; [reflexivity|].
  rewrite Split_cons. cbn [Count].
  destruct (Ascii.eqb c sep); cbn [length]; [now rewrite IH|].
  pose proof (Split_nonempty s sep) as Hne.
  destruct (Split s sep) as [|piece pieces]; [contradiction|].
  cbn [length] in *. lia.
Qed.

Lemma Split_free (s : string) (sep : ascii) :
  Forall (free_of sep) (Split s sep).
Proof.
  induction s as [|c s IH]; [repeat constructor|].
  rewrite Split_cons.
  destruct (Ascii.eqb c sep) eqn:Hc; [constructor; [reflexivity | exact IH]|].
  destruct (Split s sep) as [|piece pieces].
  - repeat constructor. unfold free_of. simpl. now rewrite Hc.
  - inversion IH as [|? ? Hp Hps]; subst. constructor; [|exact Hps].
    unfold free_of in *. simpl. now rewrite Hc, Hp.
Qed.

Lemma Join_cons (e e' : string) (rest : list string) (sep : ascii) :
  Join (e :: e' :: rest) sep = (e ++ String sep (Join (e' :: rest) sep))%string.
Proof. reflexivity. Qed.

Lemma Join_Split (s : string) (sep : ascii) : Join (Split s sep) sep = s.
Proof.
  induction s as [|c s IH]; [reflexivity|].
  rewrite Split_cons.
  pose proof (Split_nonempty s sep) as Hne.
  destruct (Ascii.eqb_spec c sep) as [-> | Hc].
  - destruct (Split s sep) as [|piece pieces]; [contradiction|].
    rewrite Join_cons, IH. reflexivity.
  - destruct (Split s sep) as [|piece [|piece' pieces]]; [contradiction| |].
    + rewrite <- IH. reflexivity.
    + rewrite Join_cons in *. rewrite <- IH. reflexivity.
Qed.

Lemma Split_free_piece (p : string) (sep : ascii) :
  free_of sep p -> Split p sep = [p].
Proof.
  unfold free_of. induction p as [|c p IH]; intros H; [reflexivity|].
  rewrite Split_cons. simpl in H.
  destruct (Ascii.eqb c sep); [discriminate|].
  rewrite IH by exact H. reflexivity.
Qed.

Lemma Split_piece (p : string) (sep : ascii) (rest : string) :
  free_of sep p ->
  Split (p ++ String sep rest) sep = p :: Split rest sep.
Proof.
  unfold free_of. induction p as [|c p IH]; intros H.
  - simpl. now rewrite Ascii.eqb_refl.
  - simpl in H. change ((String c p ++ String sep rest)%string)
      with (String c (p ++ String sep rest)).
    rewrite Split_cons.
    destruct (Ascii.eqb c sep); [discriminate|].
    rewrite IH by exact H. reflexivity.
Qed.

Lemma Split_Join (pieces : list string) (sep : ascii) :
  pieces <> [] -> Forall (free_of sep) pieces ->
  Split (Join pieces sep) sep = pieces.
Proof.
  induction pieces as [|p [|p' rest] IH]; intros Hne Hfree; [contradiction| |].
  - apply Split_free_piece. now inversion Hfree.
  - rewrite Join_cons. inversion Hfree as [|? ? Hp Hrest]; subst.
    rewrite Split_piece by exact Hp. f_equal. apply IH; [discriminate | exact Hrest].
Qed.


Lemma app_String (c : ascii) (a b : string) :
  (String c a ++ b)%string = String c (a ++ b).
Proof. reflexivity. Qed.

Lemma app_empty_r (a : string) : (a ++ "")%string = a.
Proof. induction a as [|c a IH]; [reflexivity|]. now rewrite app_String, IH. Qed.

Lemma app_string_assoc (a b c : string) :
  ((a ++ b) ++ c)%string = (a ++ (b ++ c))%string.
Proof.
  induction a as [|x a IH]; [reflexivity|]. now rewrite !app_String, IH.
Qed.

Lemma Count_app (a b : string) (c : ascii) :
  Count (a ++ b) c = (Count a c + Count b c)%nat.
Proof.
  induction a as [|x a IH]; [reflexivity|].
  rewrite app_String. cbn [Count]. rewrite IH. lia.
Qed.

Lemma HasPrefix_app (p s : string) : HasPrefix (p ++ s) p = true.
Proof.
  induction p as [|c p IH]; [destruct s; reflexivity|].
  rewrite app_String. cbn [HasPrefix]. now rewrite Ascii.eqb_refl, IH.
Qed.

Lemma drop_app (p s : string) : drop (String.length p) (p ++ s) = s.
Proof.
  induction p as [|c p IH]; [destruct s; reflexivity|].
  rewrite app_String. cbn [String.length drop]. exact IH.
Qed.

Lemma TrimPrefix_app (p s : string) : TrimPrefix (p ++ s) p = s.
Proof. unfold TrimPrefix. now rewrite HasPrefix_app, drop_app. Qed.

Lemma HasPrefix_inv (s p : string) :
  HasPrefix s p = true -> s = (p ++ drop (String.length p) s)%string.
Proof.
  revert s. induction p as [|c p IH]; intros s H; [destruct s; reflexivity|].
  destruct s as [|d s]; [discriminate|].
  cbn [HasPrefix] in H. apply andb_prop in H as [Hc Hp].
  apply Ascii.eqb_eq in Hc as ->.
  rewrite app_String. cbn [String.length drop]. f_equal. now apply IH.
Qed.

(** The pieces of a text that starts with space-free pieces. *)
Lemma Split_Join_app (before : list string) (p : string) (sep : ascii)
    (rest : option string) :
  Forall (free_of sep) before -> free_of sep p ->
  Split (Join (before ++ [p]) sep
         ++ match rest with None => "" | Some t => String sep t end) sep
  = before ++ p :: match rest with None => [] | Some t => Split t sep end.
Proof.
  intros Hb Hp. induction Hb as [|b before Hfree Hb IH].
  - cbn [app Join]. destruct rest as [t|].
    + now apply Split_piece.
    + rewrite app_empty_r. now apply Split_free_piece.
  - cbn [app]. destruct (before ++ [p]) as [|e es] eqn:He.
    { destruct before; discriminate. }
    rewrite Join_cons, app_string_assoc, app_String.
    rewrite Split_piece by exact Hfree. now rewrite IH.
Qed.

End SplitJoin.

Section CmdlineProps.
Import Strings GoStrings Cmdline.

Lemma scan_skip (before after : list string) (prefix : string) :
  Forall (fun p => HasPrefix p prefix = false) before ->
  scan (before ++ after) prefix = scan after prefix.
Proof.
  induction 1 as [|b before Hb _ IH]; [reflexivity|].
  cbn [app scan]. now rewrite Hb.
Qed.

Lemma scan_found (pieces : list string) (prefix value : string) :
  scan pieces prefix = Some value ->
  exists before after,
    pieces = before ++ (prefix ++ value)%string :: after
    /\ Forall (fun p => HasPrefix p prefix = false) before.
Proof.
  induction pieces as [|p pieces IH]; [discriminate|].
  cbn [scan]. destruct (HasPrefix p prefix) eqn:Hp.
  - intros [= <-]. exists [], pieces. split; [|constructor].
    cbn [app]. f_equal. unfold TrimPrefix. rewrite Hp. now apply HasPrefix_inv.
  - intros H. destruct (IH H) as (before & after & -> & Hb).
    exists (p :: before), after. split; [reflexivity | now constructor].
Qed.

Lemma scan_missing (pieces : list string) (prefix : string) :
  scan pieces prefix = None ->
  Forall (fun p => HasPrefix p prefix = false) pieces.
Proof.
  induction pieces as [|p pieces IH]; [constructor|].
  cbn [scan]. destruct (HasPrefix p prefix) eqn:Hp; [discriminate|].
  intros H. constructor; [exact Hp | now apply IH].
Qed.

(** X1. When the command line holds the piece [key=value] after pieces
    that do not start with [key=], [cmdlineParam] returns [value] whole,
    whatever follows the piece. *)
Theorem cmdlineParam_finds_value (before : list string) (key value : string)
    (rest : option string)
    (Hfree : Forall (free_of " ") before)
    (Hother : Forall (fun p => HasPrefix p (key ++ "=") = false) before)
    (Hkey : free_of " " key)
    (Hvalue : free_of " " value) :
  cmdlineParam
    (Some (Join (before ++ [(key ++ "=" ++ value)%string]) " "
           ++ match rest with None => "" | Some t => String " " t end)%string)
    key
  = inl value.
Proof.
  unfold cmdlineParam.
  rewrite Split_Join_app; [|exact Hfree|].
  - rewrite scan_skip by exact Hother. cbn [scan].
    rewrite <- app_string_assoc, HasPrefix_app, TrimPrefix_app. reflexivity.
  - unfold free_of in *. rewrite !Count_app, Hkey, Hvalue. reflexivity.
Qed.

Lemma cmdlineParam_finds_value_witness :
  cmdlineParam (Some "console=ttyS0 tinfoil-domain=example.com quiet")
               "tinfoil-domain"
  = inl "example.com"%string.
Proof.
  exact (cmdlineParam_finds_value ["console=ttyS0"%string] "tinfoil-domain"
           "example.com" (Some "quiet"%string)
           ltac:(repeat constructor) ltac:(repeat constructor) eq_refl eq_refl).
Defined.

(** X2. A value returned by [cmdlineParam] holds no space and stands in
    the command line right after the first piece-initial [key=]; the
    error is [Missing key] exactly when no piece starts with [key=]. *)
Theorem cmdlineParam_sound (cmdline key : string) :
  match cmdlineParam (Some cmdline) key with
  | inl value =>
      free_of " " value
      /\ exists before after,
           Split cmdline " " = before ++ (key ++ "=" ++ value)%string :: after
           /\ Forall (fun p => HasPrefix p (key ++ "=") = false) before
           /\ cmdline = Join (before ++ (key ++ "=" ++ value)%string :: after) " "
  | inr e =>
      e = Missing key
      /\ Forall (fun p => HasPrefix p (key ++ "=") = false) (Split cmdline " ")
  end.
Proof.
  unfold cmdlineParam.
  destruct (scan (Split cmdline " ") (key ++ "=")) as [value|] eqn:Hscan.
  - destruct (scan_found _ _ _ Hscan) as (before & after & Hsplit & Hb).
    rewrite app_string_assoc in Hsplit.
    assert (Hin : free_of " " (key ++ "=" ++ value)).
    { pose proof (Split_free cmdline " ") as Hall. rewrite Hsplit in Hall.
      apply Forall_app in Hall as [_ Hall]. now inversion Hall. }
    split.
    + unfold free_of in *. rewrite !Count_app in Hin. lia.
    + exists before, after. split; [exact Hsplit|]. split; [exact Hb|].
      rewrite <- Hsplit. symmetry. apply Join_Split.
  - split; [reflexivity | now apply scan_missing].
Qed.

End CmdlineProps.

Section HeadersFlag.
Import Strings GoStrings Flags Http Shim.

Lemma Split_two (kv : string) (sep : ascii) :
  Count kv sep = 1%nat <-> exists k v, Split kv sep = [k; v].
Proof.
  pose proof (Split_length kv sep) as Hlen. split.
  - intros H. rewrite H in Hlen.
    destruct (Split kv sep) as [|k [|v [|x rest]]]; try discriminate.
    now exists k, v.
  - intros (k & v & H). rewrite H in Hlen. cbn [length] in Hlen. lia.
Qed.

Lemma parseHeaders_ok (entries : list string) (m0 : gmap string string) :
  Forall one_colon entries -> exists m, MainGo.parseHeaders entries m0 = Ok m.
Proof.
  intros H. revert m0. induction H as [|kv entries Hkv _ IH]; intros m0.
  - now exists m0.
  - apply Split_two in Hkv as (k & v & Hkv).
    cbn [MainGo.parseHeaders]. rewrite Hkv. apply IH.
Qed.





Lemma parseHeaders_entries (pairs : list (string * string))
    (m0 : gmap string string) :
  Forall plain pairs ->
  MainGo.parseHeaders (map entry pairs) m0
  = Ok (fold_left (fun m kv => <[fst kv := snd kv]> m) pairs m0).
Proof.
  intros H. revert m0. induction H as [|[k v] pairs Hkv _ IH]; intros m0.
  - reflexivity.
  - destruct Hkv as (Hk & Hv & _). cbn [fst snd] in *.
    cbn [map MainGo.parseHeaders]. unfold entry at 1. cbn [fst snd].
    rewrite Split_piece by exact Hk. rewrite Split_free_piece by exact Hv.
    apply IH.
Qed.

Lemma fold_insert_list_to_map (pairs : list (string * string)) :
  fold_left (fun (m : gmap string string) kv => <[fst kv := snd kv]> m) pairs ∅
  = list_to_map (rev pairs).
Proof.
  rewrite <- fold_left_rev_right. generalize (rev pairs) as l.
  induction l as [|[k v] l IH]; [reflexivity|].
  cbn [fold_right list_to_map fst snd]. now rewrite IH.
Qed.

Lemma fold_insert_lookup (pairs : list (string * string))
    (m0 : gmap string string) (k : string) :
  fold_left (fun (m : gmap string string) kv => <[fst kv := snd kv]> m) pairs m0 !! k
  = match last (filter (fun kv => fst kv = k) pairs) with
    | Some kv => Some (snd kv)
    | None => m0 !! k
    end.
Proof.
  induction pairs as [|[k' v'] pairs IH] using rev_ind; [reflexivity|].
  rewrite fold_left_app. cbn [fold_left fst snd].
  rewrite filter_app, lookup_insert.
  rewrite filter_cons, filter_nil. cbn [fst].
  case_decide as Hk.
  - now rewrite last_snoc.
  - now rewrite app_nil_r.
Qed.

Lemma entry_free_comma (kv : string * string) :
  plain kv -> free_of "," (entry kv).
Proof.
  intros (_ & _ & Hk & Hv). unfold free_of, entry in *.
  rewrite Count_app. cbn [Count]. rewrite Hk, Hv. reflexivity.
Qed.

(** X4. For a non-empty list of pairs whose names and values hold no
    colon and no comma, starting main.go with the flag [-H] set to the
    entries [name:value] joined by commas gives the header map of these
    pairs, the last entry of a repeated name winning. *)
Theorem headers_flag_round_trip (SevGuestV1 : string) (ReportSize : nat)
    (pairs : list (string * string)) (allowedPaths : string) (up : Z)
    (raw : list byte) (provider : option QuoteProvider) (s : MainGo.Server)
    (Hne : pairs <> [])
    (Hplain : Forall plain pairs)
    (Hmain : MainGo.main SevGuestV1 ReportSize (Join (map entry pairs) ",")
               allowedPaths up raw provider = Ok s) :
  MainGo.headerMap s = list_to_map (rev pairs)
  /\ forall k, MainGo.headerMap s !! k
               = snd <$> last (filter (fun kv => fst kv = k) pairs).
Proof.
  unfold MainGo.main in Hmain.
  rewrite Split_Join in Hmain.
  - rewrite parseHeaders_entries in Hmain by exact Hplain.
    destruct (attestationReport _ _ _ _) as [att|e]; [|discriminate].
    injection Hmain as <-. cbn [MainGo.headerMap]. split.
    + apply fold_insert_list_to_map.
    + intros k. rewrite fold_insert_lookup, lookup_empty.
      destruct (last _); reflexivity.
  - destruct pairs; [contradiction | discriminate].
  - apply Forall_map. eapply Forall_impl; [exact Hplain|].
    intros kv. apply entry_free_comma.
Qed.

Lemma headers_flag_round_trip_witness :
  MainGo.headerMap
    (MainGo.mkServer ["/api"%string]
       (list_to_map [("X-A", "3"); ("X-B", "2"); ("X-A", "1")]%string)
       8080 (mkDocument "sev" "AQEB"))
  !! "X-A"%string
  = snd <$> last (filter (fun kv => fst kv = "X-A"%string)
                    [("X-A", "1"); ("X-B", "2"); ("X-A", "3")]%string).
Proof.
  apply (headers_flag_round_trip "sev" 3
           [("X-A", "1"); ("X-B", "2"); ("X-A", "3")]%string "/api" 8080 []
           (Some (Fixtures.provider 5))).
  - discriminate.
  - repeat constructor.
  - vm_compute. reflexivity.
Defined.

End HeadersFlag.

Section PathsFlag.
Import GoBytes Strings GoStrings Http Shim.

Implicit Types (json_Marshal : Document -> list byte).







End PathsFlag.

Section Startup.
Import GoBytes Strings GoStrings Http Shim.

Lemma userData_certFPHex (raw : list byte) :
  userData (certFPHex raw)
  = list_byte_of_string (Hex.EncodeToString (Sha256.Sum256 raw)).
Proof.
  unfold userData. rewrite copy_into_zeros.
  pose proof (certFPHex_length raw) as Hlen. rewrite Hlen.
  rewrite firstn_all2 by lia. rewrite Nat.sub_diag. apply app_nil_r.
Qed.

Lemma attestationReport_ok (SevGuestV1 : string) (ReportSize : nat)
    (provider : option QuoteProvider) (certFP : string) (doc : Document) :
  attestationReport SevGuestV1 ReportSize provider certFP = Ok doc ->
  exists qp report,
    provider = Some qp
    /\ GetRawQuote qp (userData certFP) = Some report
    /\ doc = mkDocument SevGuestV1
               (Base64.StdEncoding_EncodeToString (firstn ReportSize report)).
Proof.
  unfold attestationReport. destruct provider as [qp|]; [|discriminate].
  destruct (GetRawQuote qp (userData certFP)) as [report|] eqn:Hq; [|discriminate].
  intros [= <-]. exists qp, report. split; [reflexivity|]. split; [exact Hq|].
  destruct (ReportSize <? length report)%nat eqn:Hlt; [reflexivity|].
  apply Nat.ltb_ge in Hlt. now rewrite firstn_all2.
Qed.

(** X8. In the three [main] files a server exists only if a quote
    provider was found and returned a report for the buffer holding the
    hexadecimal SHA-256 digest of the certificate; the document served is
    the format tag with the base64 text of the first [ReportSize] bytes
    of that report. *)
Theorem startup_binds_certificate (SevGuestV1 : string) (ReportSize : nat)
    (headers allowedPaths : string) (configPaths : list string) (up : Z)
    (raw : list byte) (provider : option QuoteProvider) :
  let bound (att : Document) :=
    exists qp report,
      provider = Some qp
      /\ GetRawQuote qp
           (list_byte_of_string (Hex.EncodeToString (Sha256.Sum256 raw)))
         = Some report
      /\ att = mkDocument SevGuestV1
                 (Base64.StdEncoding_EncodeToString (firstn ReportSize report)) in
  (forall s,
      MainGo.main SevGuestV1 ReportSize headers allowedPaths up raw provider = Ok s ->
      bound (MainGo.att s))
  /\ (forall s,
         Variant.main_flags SevGuestV1 ReportSize allowedPaths up raw provider = Ok s ->
         bound (Variant.att s))
  /\ (forall s,
         Variant.main_yaml SevGuestV1 ReportSize configPaths up raw provider = Ok s ->
         bound (Variant.att s)).
Proof.
  intros bound.
  assert (H : forall att,
             attestationReport SevGuestV1 ReportSize provider (certFPHex raw) = Ok att ->
             bound att).
  { intros att Hatt. apply attestationReport_ok in Hatt as (qp & report & Hp & Hq & Hd).
    rewrite userData_certFPHex in Hq. exists qp, report. auto. }
  split; [|split]; intros s Hmain.
  - unfold MainGo.main in Hmain.
    destruct (MainGo.parseHeaders _ _); [|discriminate].
    destruct (attestationReport _ _ _ _) as [att|e] eqn:Hatt; [|discriminate].
    injection Hmain as <-. now apply H.
  - unfold Variant.main_flags in Hmain.
    destruct (attestationReport _ _ _ _) as [att|e] eqn:Hatt; [|discriminate].
    injection Hmain as <-. now apply H.
  - unfold Variant.main_yaml in Hmain.
    destruct (attestationReport _ _ _ _) as [att|e] eqn:Hatt; [|discriminate].
    injection Hmain as <-. now apply H.
Qed.

Lemma startup_binds_certificate_witness :
  exists qp report,
    Some (Fixtures.provider 5) = Some qp
    /\ GetRawQuote qp
         (list_byte_of_string (Hex.EncodeToString (Sha256.Sum256 [])))
       = Some report
    /\ mkDocument "sev" "AQEB"
       = mkDocument "sev"
           (Base64.StdEncoding_EncodeToString (firstn 3 report)).
Proof.
  apply (proj1 (proj2 (startup_binds_certificate "sev" 3 "" "/api" [] 8080 []
                         (Some (Fixtures.provider 5))))
               (Variant.mkServer ["/api"%string] 8080 (mkDocument "sev" "AQEB"))).
  vm_compute. reflexivity.
Defined.

Lemma base64_padded_length (alphabet : string) (c : ascii) (src : list byte) :
  String.length (Base64.EncodeToString alphabet (Some c) src)
  = (4 * ((length src + 2) / 3))%nat.
Proof.
  assert (H : forall n src, (length src <= n)%nat ->
              String.length (Base64.EncodeToString alphabet (Some c) src)
              = (4 * ((length src + 2) / 3))%nat).
  { clear src. induction n as [|n IH]; intros src Hn.
    - destruct src; [reflexivity | simpl in Hn; lia].
    - destruct src as [|a [|b [|d rest]]]; try reflexivity.
      cbn [Base64.EncodeToString String.length].
      rewrite IH by (cbn [length] in Hn; lia). cbn [length].
      replace (S (S (S (length rest))) + 2)%nat
        with ((length rest + 2) + 1 * 3)%nat by lia.
      rewrite Nat.div_add by lia. lia. }
  now apply (H (length src)).
Qed.

(** X9. A document returned by [attestationReport] carries the
    provider's format tag, and its body has a multiple of four characters,
    at most [4 * ceil(ReportSize / 3)]. *)
Theorem attestation_body_length (SevGuestV1 : string) (ReportSize : nat)
    (provider : option QuoteProvider) (certFP : string) (doc : Document)
    (Hdoc : attestationReport SevGuestV1 ReportSize provider certFP = Ok doc) :
  Format doc = SevGuestV1
  /\ (String.length (Body doc) mod 4 = 0)%nat
  /\ (String.length (Body doc) <= 4 * ((ReportSize + 2) / 3))%nat.
Proof.
  apply attestationReport_ok in Hdoc as (qp & report & _ & _ & ->).
  cbn [Format Body]. unfold Base64.StdEncoding_EncodeToString.
  rewrite base64_padded_length. split; [reflexivity|]. split.
  - rewrite Nat.mul_comm. apply Nat.Div0.mod_mul.
  - apply Nat.mul_le_mono_l. apply Nat.Div0.div_le_mono.
    rewrite length_firstn. lia.
Qed.

Lemma attestation_body_length_witness :
  Format (mkDocument "sev" "AQEB") = "sev"%string
  /\ (String.length (Body (mkDocument "sev" "AQEB")) mod 4 = 0)%nat
  /\ (String.length (Body (mkDocument "sev" "AQEB")) <= 4 * ((3 + 2) / 3))%nat.
Proof.
  apply (attestation_body_length "sev" 3 (Some (Fixtures.provider 5)) "00ff").
  vm_compute. reflexivity.
Defined.

End Startup.

Section HexBinding.
Import GoBytes Shim.

Lemma hex_round_trip (src : list byte) :
  HexDec.DecodeString (Hex.EncodeToString src) = Some src.
Proof.
  induction src as [|v rest IH]; [reflexivity|].
  cbn [Hex.EncodeToString HexDec.DecodeString]. rewrite IH.
  destruct v; reflexivity.
Qed.

Lemma list_byte_of_string_inj (s t : string) :
  list_byte_of_string s = list_byte_of_string t -> s = t.
Proof.
  intros H. rewrite <- (string_of_list_byte_of_string s),
    <- (string_of_list_byte_of_string t). now rewrite H.
Qed.

(** X10. The buffer handed to the quote provider determines the digest:
    two certificates with the same buffer have the same SHA-256 digest
    (the hexadecimal text is decodable and the 64-byte buffer holds all of
    it). *)
Theorem user_data_determines_digest (raw1 raw2 : list byte)
    (Heq : userData (certFPHex raw1) = userData (certFPHex raw2)) :
  Sha256.Sum256 raw1 = Sha256.Sum256 raw2.
Proof.
  rewrite !userData_certFPHex in Heq.
  apply list_byte_of_string_inj in Heq.
  apply (f_equal HexDec.DecodeString) in Heq.
  rewrite !hex_round_trip in Heq. exact (Some_inj _ _ Heq).
Qed.

Lemma user_data_determines_digest_witness :
  Sha256.Sum256 (list_byte_of_string "abc")
  = Sha256.Sum256 (list_byte_of_string "abc").
Proof.
  exact (user_data_determines_digest (list_byte_of_string "abc")
           (list_byte_of_string "abc") eq_refl).
Defined.

End HexBinding.

Section VerifierMore.
Import GoBytes GoTime Key TokenText Fixtures.

Implicit Types (nonceSize : nat) (v : Verifier) (now : Time).
Implicit Types (verify : list byte -> list byte -> list byte -> bool).

(** X11. [Verify] returns [nil] only for a text that decodes to
    [totalSize] bytes, not expired at the clock reading, with a key of 32
    bytes under which the trailing 64 bytes are a valid signature of the
    bytes before them. *)
Theorem verify_accepts_only_checked_tokens nonceSize verify v now
    (apiKey : string)
    (Hok : Verify nonceSize verify v now apiKey = Return None) :
  exists data,
    Base64.RawURLEncoding_DecodeString apiKey = Some data
    /\ length data = totalSize nonceSize
    /\ expired nonceSize now data = false
    /\ length (publicKey v) = PublicKeySize
    /\ verify (publicKey v) (message nonceSize data) (signature nonceSize data) = true
    /\ message nonceSize data ++ signature nonceSize data = data
    /\ length (message nonceSize data) = (nonceSize + 16)%nat
    /\ length (signature nonceSize data) = 64%nat.
Proof.
  unfold Verify in Hok.
  destruct (Base64.RawURLEncoding_DecodeString apiKey) as [data|] eqn:Hdec;
    [|discriminate].
  destruct (length data =? totalSize nonceSize)%nat eqn:Hlen; [|discriminate].
  apply Nat.eqb_eq in Hlen. cbn [negb] in Hok.
  destruct (expired nonceSize now data) eqn:Hexp; [discriminate|].
  unfold ed25519_Verify in Hok.
  destruct (length (publicKey v) =? PublicKeySize)%nat eqn:Hkey; [|discriminate].
  apply Nat.eqb_eq in Hkey.
  destruct (verify _ _ _) eqn:Hsig; [|discriminate].
  exists data. repeat (split; [first [reflexivity | assumption]|]).
  unfold message, signature, slice, totalSize, timestampSize, validitySize,
    signatureSize in *.
  rewrite Nat.sub_0_r. cbn [skipn].
  split; [apply firstn_skipn|].
  split; rewrite ?length_firstn, ?length_skipn; lia.
Qed.

Lemma verify_accepts_only_checked_tokens_witness :
  exists data,
    Base64.RawURLEncoding_DecodeString (tok 1700000000 60) = Some data
    /\ length data = totalSize 16
    /\ expired 16 (Unix 1700000000 0) data = false
    /\ length (publicKey v32) = PublicKeySize
    /\ accept_all (publicKey v32) (message 16 data) (signature 16 data) = true
    /\ message 16 data ++ signature 16 data = data
    /\ length (message 16 data) = (16 + 16)%nat
    /\ length (signature 16 data) = 64%nat.
Proof.
  apply (verify_accepts_only_checked_tokens 16 accept_all v32
           (Unix 1700000000 0) (tok 1700000000 60)).
  vm_compute. reflexivity.
Defined.

Lemma sextets_foreign (alphabet s1 s2 : string) (c : ascii) :
  Base64.decodeMap alphabet c = None -> Base64.is_newline c = false ->
  Base64.sextets alphabet (s1 ++ String c s2) = None.
Proof.
  intros Hc Hn. induction s1 as [|d s1 IH].
  - change (Base64.sextets alphabet (String c s2) = None).
    cbn [Base64.sextets]. now rewrite Hn, Hc.
  - rewrite app_String. cbn [Base64.sextets]. rewrite IH.
    destruct (Base64.is_newline d); [reflexivity|].
    destruct (Base64.decodeMap alphabet d); reflexivity.
Qed.

Lemma sextets_newline (alphabet s1 s2 : string) (c : ascii) :
  Base64.is_newline c = true ->
  Base64.sextets alphabet (s1 ++ String c s2) = Base64.sextets alphabet (s1 ++ s2).
Proof.
  intros Hn. induction s1 as [|d s1 IH].
  - change (Base64.sextets alphabet (String c s2) = Base64.sextets alphabet s2).
    cbn [Base64.sextets]. now rewrite Hn.
  - rewrite !app_String. cbn [Base64.sextets]. now rewrite IH.
Qed.

(** X12. A token text holding a character that is neither in the
    URL-safe alphabet nor a line break (a padding [=], a [+] or a [/] for
    instance) is rejected with [ErrInvalidKeyFormat], wherever the
    character stands. *)
Theorem foreign_character_is_invalid_format nonceSize verify v now
    (s1 s2 : string) (c : ascii)
    (Hforeign : Base64.decodeMap Base64.encodeURL c = None)
    (Hnewline : Base64.is_newline c = false) :
  Verify nonceSize verify v now (s1 ++ String c s2)
  = Return (Some ErrInvalidKeyFormat).
Proof.
  unfold Verify, Base64.RawURLEncoding_DecodeString.
  now rewrite sextets_foreign.
Qed.

Lemma foreign_character_is_invalid_format_witness :
  Verify 16 accept_all v32 (Unix 1700000000 0) "AAAA="
  = Return (Some ErrInvalidKeyFormat).
Proof.
  exact (foreign_character_is_invalid_format 16 accept_all v32
           (Unix 1700000000 0) "AAAA" "" "="%char eq_refl eq_refl).
Defined.

(** X13. A carriage return or line feed anywhere in the token text does
    not change the outcome of [Verify]. *)
Theorem line_breaks_in_token_ignored nonceSize verify v now
    (s1 s2 : string) (c : ascii)
    (Hnewline : Base64.is_newline c = true) :
  Verify nonceSize verify v now (s1 ++ String c s2)
  = Verify nonceSize verify v now (s1 ++ s2).
Proof.
  unfold Verify, Base64.RawURLEncoding_DecodeString.
  now rewrite sextets_newline.
Qed.

Lemma line_breaks_in_token_ignored_witness :
  Verify 16 accept_all v32 (Unix 1700000000 0)
         ("AA" ++ String "010"%char "AA")
  = Verify 16 accept_all v32 (Unix 1700000000 0) ("AA" ++ "AA").
Proof.
  exact (line_breaks_in_token_ignored 16 accept_all v32 (Unix 1700000000 0)
           "AA" "AA" "010"%char eq_refl).
Defined.

Lemma sextets_length (alphabet s : string) (vs : list Z) :
  Base64.sextets alphabet s = Some vs -> length vs = significant s.
Proof.
  revert vs. induction s as [|c s IH]; intros vs H.
  - injection H as <-. reflexivity.
  - cbn [Base64.sextets significant] in *.
    destruct (Base64.is_newline c); [now apply IH|].
    destruct (Base64.decodeMap alphabet c); [|discriminate].
    destruct (Base64.sextets alphabet s) as [vs'|]; [|discriminate].
    injection H as <-. cbn [length]. now rewrite (IH vs').
Qed.

Lemma quanta_length (vs : list Z) (out : list byte) :
  Base64.quanta vs = Some out ->
  length out = (3 * length vs / 4)%nat /\ (length vs mod 4 <> 1)%nat.
Proof.
  assert (H : forall n vs out, (length vs <= n)%nat ->
              Base64.quanta vs = Some out ->
              length out = (3 * length vs / 4)%nat /\ (length vs mod 4 <> 1)%nat).
  { clear vs out. induction n as [|n IH]; intros vs out Hn Hq.
    - destruct vs; [|simpl in Hn; lia]. injection Hq as <-. split; [reflexivity|].
      discriminate.
    - destruct vs as [|a [|b [|c [|d rest]]]].
      + injection Hq as <-. split; [reflexivity | discriminate].
      + discriminate.
      + injection Hq as <-. split; [reflexivity | discriminate].
      + injection Hq as <-. split; [reflexivity | discriminate].
      + cbn [Base64.quanta] in Hq.
        destruct (Base64.quanta rest) as [out'|] eqn:Hr; [|discriminate].
        injection Hq as <-.
        destruct (IH rest out' ltac:(cbn [length] in Hn; lia) Hr) as [Hl Hm].
        cbn [length]. rewrite Hl. split.
        * replace (3 * S (S (S (S (length rest)))))%nat
            with (3 * length rest + 3 * 4)%nat by lia.
          rewrite Nat.div_add by lia. lia.
        * replace (S (S (S (S (length rest)))))%nat
            with (length rest + 1 * 4)%nat by lia.
          rewrite Nat.Div0.mod_add. exact Hm. }
  now apply (H (length vs)).
Qed.

(** X14. With [n] the number of characters of the token text other than
    line breaks: when [n] is 1 modulo 4 [Verify] fails with
    [ErrInvalidKeyFormat], and when [3n/4] (rounded down) is not
    [totalSize] it fails with [ErrInvalidKeyFormat] or
    [ErrInvalidKeyLength]. *)
Theorem token_text_length nonceSize verify v now (apiKey : string) :
  ((significant apiKey mod 4 = 1)%nat ->
   Verify nonceSize verify v now apiKey = Return (Some ErrInvalidKeyFormat))
  /\ ((3 * significant apiKey / 4 <> totalSize nonceSize)%nat ->
      Verify nonceSize verify v now apiKey = Return (Some ErrInvalidKeyFormat)
      \/ Verify nonceSize verify v now apiKey = Return (Some ErrInvalidKeyLength)).
Proof.
  unfold Verify, Base64.RawURLEncoding_DecodeString.
  destruct (Base64.sextets Base64.encodeURL apiKey) as [vs|] eqn:Hs;
    [|split; auto].
  apply sextets_length in Hs.
  destruct (Base64.quanta vs) as [data|] eqn:Hq; [|split; auto].
  apply quanta_length in Hq as [Hl Hm]. rewrite Hs in Hl, Hm.
  split; [intros H; contradiction|].
  intros Hne. right. rewrite Hl.
  apply Nat.eqb_neq in Hne. now rewrite Hne.
Qed.

Lemma token_text_length_witness :
  Verify 16 accept_all v32 (Unix 1700000000 0) "AAAAA"
  = Return (Some ErrInvalidKeyFormat).
Proof.
  apply (proj1 (token_text_length 16 accept_all v32 (Unix 1700000000 0) "AAAAA")).
  reflexivity.
Defined.

Lemma Sub_unixNano (t u : Time) :
  Sub t u
  = let d := (unixNano t - unixNano u)%Z in
    if (maxDuration <? d)%Z then maxDuration
    else if (d <? minDuration)%Z then minDuration else d.
Proof.
  unfold Sub, unixNano. cbv zeta.
  replace ((sec t - sec u) * 1000000000 + (nsec t - nsec u))%Z
    with ((sec t - unixToInternal) * 1000000000 + nsec t
          - ((sec u - unixToInternal) * 1000000000 + nsec u))%Z by ring.
  reflexivity.
Qed.

(** X15. The expiry test is monotone in the clock: a token that is
    expired at one reading is expired at every later reading, for all
    values of its two fields. *)
Theorem expired_stays_expired nonceSize (now later : Time) (data : list byte)
    (Hclock : (unixNano now <= unixNano later)%Z)
    (Hexp : expired nonceSize now data = true) :
  expired nonceSize later data = true.
Proof.
  unfold expired, Since in *. rewrite Sub_unixNano in *. cbv zeta in *.
  set (u := unixNano (Unix (timestamp nonceSize data) 0)) in *.
  set (limit := Duration_mul (validity nonceSize data) Second) in *.
  unfold maxDuration, minDuration in *.
  rewrite Z.gtb_ltb in *. apply Z.ltb_lt in Hexp. apply Z.ltb_lt.
  repeat match goal with
         | H : context [(?a <? ?b)%Z] |- _ => destruct (Z.ltb_spec a b)
         | |- context [(?a <? ?b)%Z] => destruct (Z.ltb_spec a b)
         end; lia.
Qed.

Lemma expired_stays_expired_witness :
  expired 16 (Unix 1700000062 0) (tok_bytes 1700000000 60) = true.
Proof.
  apply (expired_stays_expired 16 (Unix 1700000061 0) (Unix 1700000062 0)
           (tok_bytes 1700000000 60)).
  - vm_compute. discriminate.
  - vm_compute. reflexivity.
Defined.

End VerifierMore.

Section HandlersMore.
Import GoBytes Http HttpOps Shim.

Implicit Types (w : ResponseWriter) (r : Request).
Implicit Types (json_Marshal : Document -> list byte).

Lemma cors_headers_absorb (h : Header) :
  <["Access-Control-Allow-Headers"%string := ["*"%string]]>
    (<["Access-Control-Allow-Methods"%string := ["*"%string]]>
       (<["Access-Control-Allow-Origin"%string := ["*"%string]]>
          (<["Access-Control-Allow-Headers"%string := ["*"%string]]>
             (<["Access-Control-Allow-Methods"%string := ["*"%string]]>
                (<["Access-Control-Allow-Origin"%string := ["*"%string]]> h)))))
  = <["Access-Control-Allow-Headers"%string := ["*"%string]]>
      (<["Access-Control-Allow-Methods"%string := ["*"%string]]>
         (<["Access-Control-Allow-Origin"%string := ["*"%string]]> h)).
Proof.
  apply map_eq. intros k. rewrite !lookup_insert.
  repeat case_decide; try reflexivity; congruence.
Qed.

(** X16. [cors] is idempotent, in both of its versions, and leaves the
    body alone; on a writer whose header is already written it changes
    neither the status nor the headers that are sent. *)
Theorem cors_idempotent w r :
  MainGo.cors (MainGo.cors w r) r = MainGo.cors w r
  /\ Variant.cors (Variant.cors w r) r = Variant.cors w r
  /\ written (MainGo.cors w r) = written w
  /\ (wroteHeader w = true ->
      sent (MainGo.cors w r) = sent w /\ status (MainGo.cors w r) = status w).
Proof.
  destruct w as [h wrote st sn body].
  assert (H : MainGo.cors (MainGo.cors (mkWriter h wrote st sn body) r) r
              = MainGo.cors (mkWriter h wrote st sn body) r).
  { unfold MainGo.cors, Header_Set, WriteHeader.
    cbn [header wroteHeader status sent written].
    destruct (String.eqb (Method r) "OPTIONS"); [destruct wrote|];
      cbn [header wroteHeader status sent written];
      f_equal; apply cors_headers_absorb. }
  split; [exact H|]. split; [now rewrite !cors_variants_agree|].
  unfold MainGo.cors, Header_Set, WriteHeader.
  cbn [header wroteHeader status sent written].
  destruct (String.eqb (Method r) "OPTIONS"); [destruct wrote|];
    cbn [header wroteHeader status sent written];
    (split; [reflexivity|]); intros Hw; try discriminate; split; reflexivity.
Qed.

Lemma cors_idempotent_witness :
  sent (MainGo.cors (WriteHeader 404 newWriter) (mkRequest "OPTIONS" "/"))
  = sent (WriteHeader 404 newWriter)
  /\ status (MainGo.cors (WriteHeader 404 newWriter) (mkRequest "OPTIONS" "/"))
     = status (WriteHeader 404 newWriter).
Proof.
  apply (proj2 (proj2 (proj2 (cors_idempotent (WriteHeader 404 newWriter)
                                (mkRequest "OPTIONS" "/"))))).
  reflexivity.
Defined.










End HandlersMore.

Section Base64RoundTrip.
Import GoBytes Key.
Local Open Scope Z_scope.

Lemma byte_of_Z_of_byte (b : byte) : byte_of_Z (Z_of_byte b) = b.
Proof.
  unfold byte_of_Z, Z_of_byte.
  pose proof (Byte.to_N_bounded b) as Hb.
  rewrite Z.mod_small by lia. rewrite N2Z.id, Byte.of_to_N. reflexivity.
Qed.

Lemma byte_of_Z_mod (z : Z) : byte_of_Z (z mod 256) = byte_of_Z z.
Proof. unfold byte_of_Z. now rewrite Z.mod_mod by lia. Qed.

(** Or-ing a shifted value with one that fits below it is an addition. *)
Lemma lor_shiftl_add (x y n : Z) :
  0 <= n -> 0 <= y < 2 ^ n -> Z.lor (Z.shiftl x n) y = x * 2 ^ n + y.
Proof.
  intros Hn Hy.
  assert (Hland : Z.land (Z.shiftl x n) y = 0).
  { apply Z.bits_inj'. intros i Hi. rewrite Z.land_spec, Z.bits_0.
    destruct (Z.lt_ge_cases i n) as [Hlt | Hge].
    - now rewrite Z.shiftl_spec_low.
    - rewrite <- (Z.mod_small y (2 ^ n)) by lia.
      rewrite Z.mod_pow2_bits_high by lia. apply andb_false_r. }
  rewrite <- Z.lxor_lor by exact Hland.
  rewrite <- Z.add_nocarry_lxor by exact Hland.
  now rewrite Z.shiftl_mul_pow2.
Qed.

Lemma land_63 (x : Z) : Z.land x 63 = x mod 64.
Proof. change 63 with (Z.ones 6). now rewrite Z.land_ones. Qed.

(** The characters of the URL alphabet decode to their index and are no
    line breaks. *)
Lemma enc_decodes (v : Z) :
  Base64.decodeMap Base64.encodeURL (Base64.enc Base64.encodeURL v)
  = Some (v mod 64)
  /\ Base64.is_newline (Base64.enc Base64.encodeURL v) = false.
Proof.
  unfold Base64.enc. rewrite land_63.
  pose proof (Z.mod_pos_bound v 64 ltac:(lia)) as Hb.
  rewrite <- (Z2Nat.id (v mod 64)) at 2 by lia.
  assert (Hn : (Z.to_nat (v mod 64) < 64)%nat) by lia.
  generalize dependent (Z.to_nat (v mod 64)). intros n Hn.
  do 64 (destruct n as [|n]; [split; reflexivity|]). lia.
Qed.


Lemma sextets_enc (v : Z) (rest : string) :
  Base64.sextets Base64.encodeURL
    (String (Base64.enc Base64.encodeURL v) rest)
  = match Base64.sextets Base64.encodeURL rest with
    | None => None
    | Some vs => Some (v mod 64 :: vs)
    end.
Proof.
  destruct (enc_decodes v) as [Hd Hn].
  cbn [Base64.sextets]. now rewrite Hn, Hd.
Qed.

(** Three bytes, cut into four 6-bit values and put together again. *)
Lemma quantum_three (a b c : byte) :
  let val := Z.lor (Z.lor (Z.shiftl (Z_of_byte a) 16) (Z.shiftl (Z_of_byte b) 8))
                   (Z_of_byte c) in
  let val' := Z.lor (Z.lor (Z.lor (Z.shiftl (Z.shiftr val 18 mod 64) 18)
                                  (Z.shiftl (Z.shiftr val 12 mod 64) 12))
                           (Z.shiftl (Z.shiftr val 6 mod 64) 6))
                    (val mod 64) in
  byte_of_Z (Z.shiftr val' 16) = a
  /\ byte_of_Z (Z.shiftr val' 8) = b
  /\ byte_of_Z val' = c.
Proof.
  intros val val'.
  pose proof (Z_of_byte_bounds a) as Ha. pose proof (Z_of_byte_bounds b) as Hb.
  pose proof (Z_of_byte_bounds c) as Hc.
  assert (Hval : val = Z_of_byte a * 65536 + Z_of_byte b * 256 + Z_of_byte c).
  { subst val. rewrite (Z.shiftl_mul_pow2 (Z_of_byte b)) by lia.
    rewrite lor_shiftl_add by lia.
    replace (Z_of_byte a * 2 ^ 16 + Z_of_byte b * 2 ^ 8)
      with (Z.shiftl (Z_of_byte a * 256 + Z_of_byte b) 8)
      by (rewrite Z.shiftl_mul_pow2 by lia; lia).
    rewrite lor_shiftl_add by lia. lia. }
  assert (Hval' : val' = val).
  { subst val'. rewrite !Z.shiftr_div_pow2 by lia.
    set (s0 := val / 2 ^ 18 mod 64). set (s1 := val / 2 ^ 12 mod 64).
    set (s2 := val / 2 ^ 6 mod 64). set (s3 := val mod 64).
    assert (0 <= s0 < 64 /\ 0 <= s1 < 64 /\ 0 <= s2 < 64 /\ 0 <= s3 < 64)
      as (B0 & B1 & B2 & B3)
      by (subst s0 s1 s2 s3; repeat split; apply Z.mod_pos_bound; lia).
    rewrite (Z.shiftl_mul_pow2 s1), (Z.shiftl_mul_pow2 s2) by lia.
    rewrite lor_shiftl_add by lia.
    replace (s0 * 2 ^ 18 + s1 * 2 ^ 12) with (Z.shiftl (s0 * 64 + s1) 12)
      by (rewrite Z.shiftl_mul_pow2 by lia; lia).
    rewrite lor_shiftl_add by lia.
    replace ((s0 * 64 + s1) * 2 ^ 12 + s2 * 2 ^ 6)
      with (Z.shiftl ((s0 * 64 + s1) * 64 + s2) 6)
      by (rewrite Z.shiftl_mul_pow2 by lia; lia).
    rewrite lor_shiftl_add by lia.
    subst s0 s1 s2 s3. rewrite Hval.
    change (2 ^ 18) with 262144. change (2 ^ 12) with 4096. change (2 ^ 6) with 64.
    Z.div_mod_to_equations. lia. }
  rewrite Hval', !Z.shiftr_div_pow2 by lia. rewrite Hval.
  change (2 ^ 16) with 65536. change (2 ^ 8) with 256.
  split; [|split].
  - replace ((Z_of_byte a * 65536 + Z_of_byte b * 256 + Z_of_byte c) / 65536)
      with (Z_of_byte a) by (Z.div_mod_to_equations; lia).
    apply byte_of_Z_of_byte.
  - rewrite <- byte_of_Z_mod.
    replace (((Z_of_byte a * 65536 + Z_of_byte b * 256 + Z_of_byte c) / 256) mod 256)
      with (Z_of_byte b) by (Z.div_mod_to_equations; lia).
    apply byte_of_Z_of_byte.
  - rewrite <- byte_of_Z_mod.
    replace ((Z_of_byte a * 65536 + Z_of_byte b * 256 + Z_of_byte c) mod 256)
      with (Z_of_byte c) by (Z.div_mod_to_equations; lia).
    apply byte_of_Z_of_byte.
Qed.


Lemma quantum_two (a b : byte) :
  let val := Z.lor (Z.shiftl (Z_of_byte a) 16) (Z.shiftl (Z_of_byte b) 8) in
  let val' := Z.lor (Z.lor (Z.shiftl (Z.shiftr val 18 mod 64) 18)
                           (Z.shiftl (Z.shiftr val 12 mod 64) 12))
                    (Z.shiftl (Z.shiftr val 6 mod 64) 6) in
  byte_of_Z (Z.shiftr val' 16) = a /\ byte_of_Z (Z.shiftr val' 8) = b.
Proof.
  intros val val'.
  pose proof (Z_of_byte_bounds a) as Ha. pose proof (Z_of_byte_bounds b) as Hb.
  assert (Hval : val = Z_of_byte a * 65536 + Z_of_byte b * 256).
  { subst val. rewrite (Z.shiftl_mul_pow2 (Z_of_byte b)) by lia.
    rewrite lor_shiftl_add by lia. lia. }
  assert (Hval' : val' = val).
  { subst val'. rewrite !Z.shiftr_div_pow2 by lia.
    set (s0 := val / 2 ^ 18 mod 64). set (s1 := val / 2 ^ 12 mod 64).
    set (s2 := val / 2 ^ 6 mod 64).
    assert (0 <= s0 < 64 /\ 0 <= s1 < 64 /\ 0 <= s2 < 64) as (B0 & B1 & B2)
      by (subst s0 s1 s2; repeat split; apply Z.mod_pos_bound; lia).
    rewrite (Z.shiftl_mul_pow2 s1), (Z.shiftl_mul_pow2 s2) by lia.
    rewrite lor_shiftl_add by lia.
    replace (s0 * 2 ^ 18 + s1 * 2 ^ 12) with (Z.shiftl (s0 * 64 + s1) 12)
      by (rewrite Z.shiftl_mul_pow2 by lia; lia).
    rewrite lor_shiftl_add by lia.
    subst s0 s1 s2. rewrite Hval.
    change (2 ^ 18) with 262144. change (2 ^ 12) with 4096. change (2 ^ 6) with 64.
    Z.div_mod_to_equations. lia. }
  rewrite Hval', !Z.shiftr_div_pow2 by lia. rewrite Hval.
  change (2 ^ 16) with 65536. change (2 ^ 8) with 256.
  split.
  - replace ((Z_of_byte a * 65536 + Z_of_byte b * 256) / 65536)
      with (Z_of_byte a) by (Z.div_mod_to_equations; lia).
    apply byte_of_Z_of_byte.
  - rewrite <- byte_of_Z_mod.
    replace (((Z_of_byte a * 65536 + Z_of_byte b * 256) / 256) mod 256)
      with (Z_of_byte b) by (Z.div_mod_to_equations; lia).
    apply byte_of_Z_of_byte.
Qed.

Lemma quantum_one (a : byte) :
  let val := Z.shiftl (Z_of_byte a) 16 in
  let val' := Z.lor (Z.shiftl (Z.shiftr val 18 mod 64) 18)
                    (Z.shiftl (Z.shiftr val 12 mod 64) 12) in
  byte_of_Z (Z.shiftr val' 16) = a.
Proof.
  intros val val'.
  pose proof (Z_of_byte_bounds a) as Ha.
  assert (Hval : val = Z_of_byte a * 65536)
    by (subst val; rewrite Z.shiftl_mul_pow2 by lia; lia).
  assert (Hval' : val' = val).
  { subst val'. rewrite !Z.shiftr_div_pow2 by lia.
    set (s0 := val / 2 ^ 18 mod 64). set (s1 := val / 2 ^ 12 mod 64).
    assert (0 <= s0 < 64 /\ 0 <= s1 < 64) as (B0 & B1)
      by (subst s0 s1; repeat split; apply Z.mod_pos_bound; lia).
    rewrite (Z.shiftl_mul_pow2 s1) by lia.
    rewrite lor_shiftl_add by lia.
    subst s0 s1. rewrite Hval.
    change (2 ^ 18) with 262144. change (2 ^ 12) with 4096.
    Z.div_mod_to_equations. lia. }
  rewrite Hval', !Z.shiftr_div_pow2 by lia. rewrite Hval.
  change (2 ^ 16) with 65536.
  replace (Z_of_byte a * 65536 / 65536) with (Z_of_byte a)
    by (Z.div_mod_to_equations; lia).
  apply byte_of_Z_of_byte.
Qed.

(** Decoding an encoded byte string gives it back. *)
Lemma rawurl_round_trip (src : list byte) :
  Base64.RawURLEncoding_DecodeString (Base64.RawURLEncoding_EncodeToString src)
  = Some src.
Proof.
  unfold Base64.RawURLEncoding_DecodeString, Base64.RawURLEncoding_EncodeToString.
  assert (H : forall n src, (length src <= n)%nat ->
              exists vs,
                Base64.sextets Base64.encodeURL
                  (Base64.EncodeToString Base64.encodeURL None src) = Some vs
                /\ Base64.quanta vs = Some src).
  { clear src. induction n as [|n IH]; intros src Hn.
    - destruct src; [|cbn [length] in Hn; lia]. now exists [].
    - destruct src as [|a [|b [|c rest]]].
      + now exists [].
      + eexists. split.
        * change (Base64.EncodeToString Base64.encodeURL None [a])
            with (String (Base64.enc Base64.encodeURL (Z.shiftr (Z.shiftl (Z_of_byte a) 16) 18))
                    (String (Base64.enc Base64.encodeURL (Z.shiftr (Z.shiftl (Z_of_byte a) 16) 12))
                       EmptyString)).
          rewrite !sextets_enc. reflexivity.
        * cbn [Base64.quanta]. now rewrite (quantum_one a).
      + eexists. split.
        * change (Base64.EncodeToString Base64.encodeURL None [a; b])
            with (let val := Z.lor (Z.shiftl (Z_of_byte a) 16) (Z.shiftl (Z_of_byte b) 8) in
                  String (Base64.enc Base64.encodeURL (Z.shiftr val 18))
                    (String (Base64.enc Base64.encodeURL (Z.shiftr val 12))
                       (String (Base64.enc Base64.encodeURL (Z.shiftr val 6))
                          EmptyString))).
          cbv zeta. rewrite !sextets_enc. reflexivity.
        * cbn [Base64.quanta].
          destruct (quantum_two a b) as [H1 H2]. now rewrite H1, H2.
      + destruct (IH rest ltac:(cbn [length] in Hn; lia)) as (vs & Hs & Hq).
        eexists. split.
        * cbn [Base64.EncodeToString]. rewrite !sextets_enc, Hs. reflexivity.
        * cbn [Base64.quanta]. rewrite Hq.
          destruct (quantum_three a b c) as (H1 & H2 & H3).
          now rewrite H1, H2, H3. }
  destruct (H (length src) src (Nat.le_refl _)) as (vs & Hs & Hq).
  now rewrite Hs.
Qed.

End Base64RoundTrip.

Section VerifierRoundTrip.
Import GoBytes GoTime Key Fixtures.

Implicit Types (nonceSize : nat) (v : Verifier) (now : Time).
Implicit Types (verify : list byte -> list byte -> list byte -> bool).

(** X19. Unpadded URL-safe base64 round-trips through the decoder, so
    [NewVerifier] on the encoding of a key stores that key, and [Verify]
    on the encoding of any [totalSize] bytes never fails on format or
    length and returns [nil] exactly when the token is not expired, the
    key has 32 bytes and the signature equation holds. *)
Theorem verify_on_encoded_token nonceSize verify (pk data : list byte) now
    (Hlen : length data = totalSize nonceSize) :
  let apiKey := Base64.RawURLEncoding_EncodeToString data in
  NewVerifier (Base64.RawURLEncoding_EncodeToString pk) = Some (mkVerifier pk)
  /\ (Verify nonceSize verify (mkVerifier pk) now apiKey = Return None
      <-> expired nonceSize now data = false
          /\ length pk = PublicKeySize
          /\ verify pk (message nonceSize data) (signature nonceSize data) = true)
  /\ Verify nonceSize verify (mkVerifier pk) now apiKey
     <> Return (Some ErrInvalidKeyFormat)
  /\ Verify nonceSize verify (mkVerifier pk) now apiKey
     <> Return (Some ErrInvalidKeyLength).
Proof.
  intros apiKey. subst apiKey.
  split; [unfold NewVerifier; now rewrite rawurl_round_trip|].
  rewrite (Verify_decoded nonceSize verify (mkVerifier pk) now _ data
             (rawurl_round_trip data) Hlen).
  unfold ed25519_Verify. cbn [publicKey].
  destruct (expired nonceSize now data);
    [split; [split; [intros H; discriminate | intros (H & _); discriminate]
            | split; discriminate]|].
  destruct (length pk =? PublicKeySize)%nat eqn:Hk.
  - apply Nat.eqb_eq in Hk.
    destruct (verify pk (message nonceSize data) (signature nonceSize data)).
    + split; [split; auto | split; discriminate].
    + split; [split; [intros H; discriminate | intros (_ & _ & H); discriminate]
             | split; discriminate].
  - apply Nat.eqb_neq in Hk.
    split; [split; [intros H; discriminate | intros (_ & H & _); contradiction]
           | split; discriminate].
Qed.

Lemma verify_on_encoded_token_witness :
  NewVerifier (Base64.RawURLEncoding_EncodeToString (repeat x00 32))
  = Some (mkVerifier (repeat x00 32)).
Proof.
  exact (proj1 (verify_on_encoded_token 16 accept_all (repeat x00 32)
                  (tok_bytes 1700000000 60) (Unix 1700000000 0) eq_refl)).
Defined.

(** X20. [Verify] panics only with a key that does not have 32 bytes,
    and only on a token that decoded to [totalSize] bytes and is not
    expired: with a well-sized key it always returns. *)
Theorem verify_panics_only_on_bad_key nonceSize verify v now (apiKey : string)
    (Hpanic : Verify nonceSize verify v now apiKey = Panic) :
  length (publicKey v) <> PublicKeySize
  /\ exists data,
       Base64.RawURLEncoding_DecodeString apiKey = Some data
       /\ length data = totalSize nonceSize
       /\ expired nonceSize now data = false.
Proof.
  unfold Verify in Hpanic.
  destruct (Base64.RawURLEncoding_DecodeString apiKey) as [data|] eqn:Hdec;
    [|discriminate].
  destruct (length data =? totalSize nonceSize)%nat eqn:Hlen; [|discriminate].
  apply Nat.eqb_eq in Hlen. cbn [negb] in Hpanic.
  destruct (expired nonceSize now data) eqn:Hexp; [discriminate|].
  unfold ed25519_Verify in Hpanic.
  destruct (length (publicKey v) =? PublicKeySize)%nat eqn:Hkey.
  - destruct (verify _ _ _); discriminate.
  - apply Nat.eqb_neq in Hkey. split; [exact Hkey|]. now exists data.
Qed.

Lemma verify_panics_only_on_bad_key_witness :
  length (publicKey (mkVerifier [x00])) <> PublicKeySize
  /\ exists data,
       Base64.RawURLEncoding_DecodeString (tok 1700000000 60) = Some data
       /\ length data = totalSize 16
       /\ expired 16 (Unix 1700000000 0) data = false.
Proof.
  apply (verify_panics_only_on_bad_key 16 accept_all (mkVerifier [x00])
           (Unix 1700000000 0) (tok 1700000000 60)).
  vm_compute. reflexivity.
Defined.

End VerifierRoundTrip.

(** ** Failure at startup *)

Section StartupFailure.
Import GoBytes Shim.

(** X22. When no quote provider is found, or the provider returns an
    error for the fingerprint buffer, the three [main] files fail: the
    variants with the error of [attestationReport], main.go with it or,
    the headers being parsed first, with the error of a malformed header
    entry. *)
Theorem attestation_failure_is_fatal (SevGuestV1 : string) (ReportSize : nat)
    (headers allowedPaths : string) (configPaths : list string) (up : Z)
    (raw : list byte) (provider : option QuoteProvider)
    (Hfail : match provider with
             | None => True
             | Some qp =>
                 GetRawQuote qp
                   (list_byte_of_string (Hex.EncodeToString (Sha256.Sum256 raw)))
                 = None
             end) :
  let e := match provider with
           | None => FailedQuoteProvider
           | Some _ => FailedQuote
           end in
  Variant.main_flags SevGuestV1 ReportSize allowedPaths up raw provider = Err e
  /\ Variant.main_yaml SevGuestV1 ReportSize configPaths up raw provider = Err e
  /\ (MainGo.main SevGuestV1 ReportSize headers allowedPaths up raw provider = Err e
      \/ exists kv,
           MainGo.main SevGuestV1 ReportSize headers allowedPaths up raw provider
           = Err (InvalidHeader kv)).
Proof.
  intros e.
  assert (Hatt : attestationReport SevGuestV1 ReportSize provider (certFPHex raw)
                 = Err e).
  { unfold attestationReport. rewrite userData_certFPHex.
    subst e. destruct provider as [qp|]; [now rewrite Hfail | reflexivity]. }
  unfold Variant.main_flags, Variant.main_yaml, MainGo.main. rewrite Hatt.
  split; [reflexivity|]. split; [reflexivity|].
  destruct (MainGo.parseHeaders _ _) as [m|[| |kv]] eqn:Hp; eauto.
  - exfalso. clear -Hp. revert Hp. generalize (∅ : gmap string string).
    induction (Strings.Split headers ",") as [|x l IH]; intros m0 Hp;
      [discriminate|].
    cbn [MainGo.parseHeaders] in Hp.
    destruct (Strings.Split x ":") as [|k [|v [|y rest]]]; try discriminate.
    now apply (IH _ Hp).
  - exfalso. clear -Hp. revert Hp. generalize (∅ : gmap string string).
    induction (Strings.Split headers ",") as [|x l IH]; intros m0 Hp;
      [discriminate|].
    cbn [MainGo.parseHeaders] in Hp.
    destruct (Strings.Split x ":") as [|k [|v [|y rest]]]; try discriminate.
    now apply (IH _ Hp).
Qed.

Lemma attestation_failure_is_fatal_witness :
  Variant.main_yaml "sev" 3 ["/api"%string] 8080 [] None
  = Err FailedQuoteProvider.
Proof.
  exact (proj1 (proj2 (attestation_failure_is_fatal "sev" 3 "X-A:1" "/api"
                         ["/api"%string] 8080 [] None I))).
Defined.

End StartupFailure.
